(** * PDF processing pipeline: the React client (App.js) and the pipeline contract

    The first part embeds the handlers of [PDFProcessorApp] (frontend/src/App.js):
    [updateNodeData], [updateEdgeAnimation], [checkApiHealth],
    [handleFileUpload], [handleDrop] and [processPDF].  React state is an
    explicit record, a handler is a computation over it that may throw, and
    every [fetch] is recorded in a log of calls.  What the network answers is
    an input of the handler.

    The second part models the server-side pipeline (chunk planning, reply
    parsing, merging), whose code is not part of the sources at hand, from
    its written contract. *)

From stdpp Require Import base strings list gmap pretty.

Open Scope string_scope.
Set Warnings "-register-all".

(** ** JavaScript values, as far as the handlers look at them *)

Module Js.

(** A value decoded from a JSON body, or built by a handler.  A number is
    given by the string JavaScript prints for it ([2], [-0.5], [1e+21]; [0]
    for both zeros): the handlers do nothing with a number but test it and
    print it. *)
Inductive value : Type :=
| Undefined
| Null
| Bool (b : bool)
| Num (printed : string)
| Str (s : string)
| Arr (items : list value)
| Obj (props : list (string * value)).

(** ToBoolean: what [if (v)], [v || w] and [!v] test. *)
Definition truthy (v : value) : bool :=
  match v with
  | Undefined | Null => false
  | Bool b => b
  | Num printed => negb (String.eqb printed "0" || String.eqb printed "NaN")
  | Str s => negb (String.eqb s "")
  | Arr _ | Obj _ => true
  end.

(** [a || b] *)
Definition or (a b : value) : value := if truthy a then a else b.

(** Own property [k] of a parsed object, [undefined] when it has none.  An
    object is given by the list of its properties; were a name listed
    twice, the first entry is the property. *)
Fixpoint lookup_prop (k : string) (props : list (string * value)) : value :=
  match props with
  | [] => Undefined
  | (k', v) :: rest => if String.eqb k k' then v else lookup_prop k rest
  end.

(** [v.k] for the property names the handlers read ([ocr_api_status],
    [success], [extracted_text], [ocr_result], [entities], [tables],
    [error], [detail]), none of which is inherited from a prototype:
    [None] stands for the TypeError raised on [undefined] and [null]. *)
Definition get (v : value) (k : string) : option value :=
  match v with
  | Undefined | Null => None
  | Obj props => Some (lookup_prop k props)
  | Bool _ | Num _ | Str _ | Arr _ => Some Undefined
  end.

(** Whether a parsed object has [k] as a property of its own. *)
Definition has_own (k : string) (props : list (string * value)) : bool :=
  existsb (fun p => String.eqb (fst p) k) props.

(** ToString, as [new Error(v)] applies it; [None] stands for the TypeError
    it raises.  A parsed object goes through the [toString] it inherits,
    unless it has a [toString] of its own: that one is no function, and
    neither it nor [valueOf] yields a primitive.  An array joins its items
    with commas, [null] and [undefined] counting as empty. *)
Fixpoint to_string (v : value) : option string :=
  match v with
  | Undefined => Some "undefined"
  | Null => Some "null"
  | Bool true => Some "true"
  | Bool false => Some "false"
  | Num printed => Some printed
  | Str s => Some s
  | Arr items =>
      (fix join (l : list value) : option string :=
         match l with
         | [] => Some ""
         | x :: rest =>
             let item := match x with
                         | Undefined | Null => Some ""
                         | _ => to_string x
                         end in
             match item, rest with
             | None, _ => None
             | Some first, [] => Some first
             | Some first, _ :: _ =>
                 match join rest with
                 | Some others => Some (first +:+ "," +:+ others)
                 | None => None
                 end
             end
         end) items
  | Obj props => if has_own "toString" props then None else Some "[object Object]"
  end.

End Js.

(** ** The pipeline graph shown by React Flow *)

Module Node.
Record t : Type := mk {
  id : string;
  type : string;
  position : Z * Z;
  data : gmap string Js.value
}.
End Node.

Module Edge.
Record t : Type := mk {
  id : string;
  source : string;
  target : string;
  animated : bool;
  style : list (string * Js.value)
}.
End Edge.

Definition initialNodes : list Node.t :=
  [ Node.mk "pdf" "pdfNode" (0, 100)%Z {[ "fileName" := Js.Null ]};
    Node.mk "processing" "processingNode" (300, 100)%Z {[ "status" := Js.Str "idle" ]};
    Node.mk "output" "outputNode" (600, 100)%Z {[ "hasResults" := Js.Bool false ]} ].

Definition edgeStyle : list (string * Js.value) :=
  [ ("stroke", Js.Str "#3b82f6"); ("strokeWidth", Js.Num "2") ].

Definition initialEdges : list Edge.t :=
  [ Edge.mk "pdf-processing" "pdf" "processing" false edgeStyle;
    Edge.mk "processing-output" "processing" "output" false edgeStyle ].

(** [{ ...node, data: { ...node.data, ...newData } }]: the later spread wins,
    which is the left-biased union with [newData] on the left. *)
Definition mergeNodeData (newData : gmap string Js.value) (node : Node.t) : Node.t :=
  Node.mk (Node.id node) (Node.type node) (Node.position node)
          (newData ∪ Node.data node).

(** [{ ...edge, animated }] *)
Definition withAnimated (animated : bool) (edge : Edge.t) : Edge.t :=
  Edge.mk (Edge.id edge) (Edge.source edge) (Edge.target edge) animated
          (Edge.style edge).

(** The function [updateNodeData] hands to [setNodes]. *)
Definition updateNodes (nodeId : string) (newData : gmap string Js.value)
    (nds : list Node.t) : list Node.t :=
  map (fun node =>
         if String.eqb (Node.id node) nodeId then mergeNodeData newData node
         else node) nds.

(** The function [updateEdgeAnimation] hands to [setEdges]. *)
Definition updateEdges (edgeId : string) (animated : bool)
    (eds : list Edge.t) : list Edge.t :=
  map (fun edge =>
         if String.eqb (Edge.id edge) edgeId then withAnimated animated edge
         else edge) eds.

(** ** Component state and the outside world *)

(** A [File] of a [FileList]: its name and its MIME type. *)
Module File.
Record t : Type := mk { name : string; type : string }.
End File.

(** [transformedResults], the object [processPDF] stores in [results]. *)
Record Results : Type := mkResults {
  text : Js.value;
  entities : Js.value;
  tables : Js.value
}.

(** The [useState] and [useNodesState]/[useEdgesState] cells of
    [PDFProcessorApp]. *)
Record AppState : Type := mkApp {
  nodes : list Node.t;
  edges : list Edge.t;
  selectedFile : option File.t;
  results : option Results;
  isProcessing : bool;
  error : option string;
  apiStatus : string;
  ocrApiStatus : Js.value
}.

Definition initialState : AppState :=
  mkApp initialNodes initialEdges None None false None "unknown" (Js.Str "unknown").

(** A thrown value; the handlers read only its [message]. *)
Record Exn : Type := mkExn { exn_name : string; message : string }.

(** What [response.json()] settles to. *)
Inductive JsonOutcome : Type :=
| JsonResolves (v : Js.value)
| JsonRejects (e : Exn).

(** The parts of a [Response] the handlers read. *)
Record Response : Type := mkResponse {
  ok : bool;
  status : Z;
  json : JsonOutcome
}.

(** What [fetch] settles to. *)
Inductive FetchOutcome : Type :=
| FetchResolves (r : Response)
| FetchRejects (e : Exn).

(** A request issued through [fetch], with the file of its form data. *)
Record Call : Type := mkCall {
  url : string;
  method : string;
  body : option File.t
}.

(** An argument of a call of [console.error]: a text, or a thrown value. *)
Inductive Logged : Type :=
| LoggedText (s : string)
| LoggedError (e : Exn).

(** The component, the requests issued so far, and the calls of
    [console.error] so far, each with its arguments. *)
Record World : Type := mkWorld {
  app : AppState;
  calls : list Call;
  console : list (list Logged)
}.

Definition API_BASE_URL : string := "http://localhost:8000".

(** ** Handlers as computations: state, a log, and exceptions *)

Inductive Outcome (A : Type) : Type :=
| Returned (a : A)
| Thrown (e : Exn).
Arguments Returned {A} a.
Arguments Thrown {A} e.

Definition M (A : Type) : Type := World -> Outcome A * World.

Definition ret {A} (a : A) : M A := fun w => (Returned a, w).

Definition bind {A B} (m : M A) (k : A -> M B) : M B :=
  fun w => match m w with
           | (Returned a, w') => k a w'
           | (Thrown e, w') => (Thrown e, w')
           end.

Definition throw {A} (e : Exn) : M A := fun w => (Thrown e, w).

(** [try { m } catch (err) { h err }] *)
Definition try_catch {A} (m : M A) (h : Exn -> M A) : M A :=
  fun w => match m w with
           | (Returned a, w') => (Returned a, w')
           | (Thrown e, w') => h e w'
           end.

(** [try { m } finally { f }]: [f] runs on both exits, and an exception of
    [m] goes on after it. *)
Definition try_finally {A} (m : M A) (f : M unit) : M A :=
  fun w => match m w with
           | (r, w') => match f w' with
                        | (Returned _, w'') => (r, w'')
                        | (Thrown e, w'') => (Thrown e, w'')
                        end
           end.

Declare Scope handler_scope.
Delimit Scope handler_scope with handler.
Notation "x <- m ;; k" := (bind m (fun x => k))
  (at level 100, m at next level, right associativity) : handler_scope.
Notation "m ;; k" := (bind m (fun _ => k))
  (at level 100, right associativity) : handler_scope.
Open Scope handler_scope.

Definition modify (f : AppState -> AppState) : M unit :=
  fun w => (Returned tt, mkWorld (f (app w)) (calls w) (console w)).

Definition readState : M AppState := fun w => (Returned (app w), w).

Definition setNodes (f : list Node.t -> list Node.t) : M unit :=
  modify (fun s => mkApp (f (nodes s)) (edges s) (selectedFile s) (results s)
                         (isProcessing s) (error s) (apiStatus s) (ocrApiStatus s)).

Definition setEdges (f : list Edge.t -> list Edge.t) : M unit :=
  modify (fun s => mkApp (nodes s) (f (edges s)) (selectedFile s) (results s)
                         (isProcessing s) (error s) (apiStatus s) (ocrApiStatus s)).

Definition setSelectedFile (v : option File.t) : M unit :=
  modify (fun s => mkApp (nodes s) (edges s) v (results s)
                         (isProcessing s) (error s) (apiStatus s) (ocrApiStatus s)).

Definition setResults (v : option Results) : M unit :=
  modify (fun s => mkApp (nodes s) (edges s) (selectedFile s) v
                         (isProcessing s) (error s) (apiStatus s) (ocrApiStatus s)).

Definition setIsProcessing (v : bool) : M unit :=
  modify (fun s => mkApp (nodes s) (edges s) (selectedFile s) (results s)
                         v (error s) (apiStatus s) (ocrApiStatus s)).

Definition setError (v : option string) : M unit :=
  modify (fun s => mkApp (nodes s) (edges s) (selectedFile s) (results s)
                         (isProcessing s) v (apiStatus s) (ocrApiStatus s)).

Definition setApiStatus (v : string) : M unit :=
  modify (fun s => mkApp (nodes s) (edges s) (selectedFile s) (results s)
                         (isProcessing s) (error s) v (ocrApiStatus s)).

Definition setOcrApiStatus (v : Js.value) : M unit :=
  modify (fun s => mkApp (nodes s) (edges s) (selectedFile s) (results s)
                         (isProcessing s) (error s) (apiStatus s) v).

(** [await fetch(url, ...)]: the call is logged, then the promise settles the
    way the network decides. *)
Definition fetch (c : Call) (net : FetchOutcome) : M Response :=
  fun w =>
    let w' := mkWorld (app w) (calls w ++ [c]) (console w) in
    match net with
    | FetchResolves r => (Returned r, w')
    | FetchRejects e => (Thrown e, w')
    end.

(** [await response.json()] *)
Definition readJson (r : Response) : M Js.value :=
  match json r with
  | JsonResolves v => ret v
  | JsonRejects e => throw e
  end.

(** The engine's message for reading property [k] of [undefined] or [null]
    (the wording is V8's; what follows refers to it by this name only). *)
Definition typeErrorMessage (v : Js.value) (k : string) : string :=
  "Cannot read properties of " +:+
  match v with Js.Null => "null" | _ => "undefined" end +:+
  " (reading '" +:+ k +:+ "')".

(** [v.k] *)
Definition prop (v : Js.value) (k : string) : M Js.value :=
  match Js.get v k with
  | Some x => ret x
  | None => throw (mkExn "TypeError" (typeErrorMessage v k))
  end.

(** The engine's message when ToString finds no primitive (V8's wording). *)
Definition conversionErrorMessage : string :=
  "Cannot convert object to primitive value".

(** What [throw new Error(v)] throws: the error with ToString of [v] as its
    message, or the TypeError of that conversion.  For [undefined] the
    error gets no message of its own, and [message] reads the empty string
    of the prototype. *)
Definition thrown (v : Js.value) : Exn :=
  match v with
  | Js.Undefined => mkExn "Error" ""
  | _ =>
      match Js.to_string v with
      | Some msg => mkExn "Error" msg
      | None => mkExn "TypeError" conversionErrorMessage
      end
  end.

(** [throw new Error(v)] *)
Definition throwError {A} (v : Js.value) : M A := throw (thrown v).

(** [console.error(...args)] *)
Definition consoleError (args : list Logged) : M unit :=
  fun w => (Returned tt, mkWorld (app w) (calls w) (console w ++ [args])).

(** ** The handlers of [PDFProcessorApp] *)

Definition updateNodeData (nodeId : string) (newData : gmap string Js.value) : M unit :=
  setNodes (updateNodes nodeId newData).

Definition updateEdgeAnimation (edgeId : string) (animated : bool) : M unit :=
  setEdges (updateEdges edgeId animated).

Definition checkApiHealth (net : FetchOutcome) : M unit :=
  try_catch
    (response <- fetch (mkCall (API_BASE_URL +:+ "/health") "GET" None) net ;;
     if ok response then
       data <- readJson response ;;
       setApiStatus "online" ;;
       s <- prop data "ocr_api_status" ;;
       setOcrApiStatus (Js.or s (Js.Str "unknown"))
     else
       setApiStatus "offline" ;;
       setOcrApiStatus (Js.Str "unknown"))
    (fun _ =>
       setApiStatus "offline" ;;
       setOcrApiStatus (Js.Str "unknown")).

(** [event.target.files] is the list [files]; [files[0]] is its head, or
    [undefined]. *)
Definition handleFileUpload (files : list File.t) : M unit :=
  match head files with
  | Some file =>
      if String.eqb (File.type file) "application/pdf" then
        setSelectedFile (Some file) ;;
        setError None ;;
        updateNodeData "pdf" {[ "fileName" := Js.Str (File.name file) ]}
      else setError (Some "Please select a valid PDF file")
  | None => setError (Some "Please select a valid PDF file")
  end.

(** [event.dataTransfer.files] is the list [files]; [preventDefault] and
    [stopPropagation] touch no state of the component. *)
Definition handleDrop (files : list File.t) : M unit :=
  match files with
  | file :: _ =>
      if String.eqb (File.type file) "application/pdf" then
        setSelectedFile (Some file) ;;
        setError None ;;
        updateNodeData "pdf" {[ "fileName" := Js.Str (File.name file) ]}
      else setError (Some "Please drop a valid PDF file")
  | [] => ret tt
  end.

Definition offlineMessage : string :=
  "FastAPI backend is offline. Please make sure the server is running on port 8000.".

(** The [try] block of [processPDF]. *)
Definition submitPDF (file : File.t) (net : FetchOutcome) : M unit :=
  response <- fetch (mkCall (API_BASE_URL +:+ "/process-pdf") "POST" (Some file)) net ;;
  (if ok response then ret tt
   else
     errorData <- try_catch (readJson response) (fun _ => ret (Js.Obj [])) ;;
     detail <- prop errorData "detail" ;;
     throwError
       (Js.or detail (Js.Str ("HTTP error! status: " +:+ pretty (status response))))) ;;
  data <- readJson response ;;
  success <- prop data "success" ;;
  if Js.truthy success then
    extracted_text <- prop data "extracted_text" ;;
    ocr_result <- prop data "ocr_result" ;;
    ents <- prop ocr_result "entities" ;;
    ocr_result' <- prop data "ocr_result" ;;
    tbls <- prop ocr_result' "tables" ;;
    setResults (Some (mkResults extracted_text ents tbls)) ;;
    updateNodeData "processing" {[ "status" := Js.Str "completed" ]} ;;
    updateNodeData "output" {[ "hasResults" := Js.Bool true ]} ;;
    updateEdgeAnimation "processing-output" true
  else
    err <- prop data "error" ;;
    throwError (Js.or err (Js.Str "Processing failed")).

(** The [catch] block of [processPDF]. *)
Definition reportFailure (err : Exn) : M unit :=
  consoleError [LoggedText "Processing error:"; LoggedError err] ;;
  setError (Some ("Failed to process PDF: " +:+ message err)).

(** The [finally] block of [processPDF]. *)
Definition windDown : M unit :=
  setIsProcessing false ;;
  updateEdgeAnimation "pdf-processing" false.

Definition processPDF (net : FetchOutcome) : M unit :=
  s <- readState ;;
  match selectedFile s with
  | None => setError (Some "Please select a PDF file first")
  | Some file =>
      if String.eqb (apiStatus s) "offline" then setError (Some offlineMessage)
      else
        setIsProcessing true ;;
        setError None ;;
        updateNodeData "processing" {[ "status" := Js.Str "processing" ]} ;;
        updateEdgeAnimation "pdf-processing" true ;;
        try_finally (try_catch (submitPDF file net) reportFailure) windDown
  end.

(** Running a handler from a state of the component: the state it leaves and
    the requests it issued. *)
Definition run (h : M unit) (s : AppState) : AppState * list Call :=
  let w := snd (h (mkWorld s [] [])) in (app w, calls w).

(** The events of a session, and the states a session can be in.  A handler
    runs to its end before the next event is taken. *)
Inductive Event : Type :=
| HealthChecked (net : FetchOutcome)
| FileChosen (files : list File.t)
| FilesDropped (files : list File.t)
| ProcessClicked (net : FetchOutcome).

Definition handler (e : Event) : M unit :=
  match e with
  | HealthChecked net => checkApiHealth net
  | FileChosen files => handleFileUpload files
  | FilesDropped files => handleDrop files
  | ProcessClicked net => processPDF net
  end.

Definition step (s : AppState) (e : Event) : AppState := fst (run (handler e) s).

Definition stateAfter (events : list Event) : AppState := foldl step initialState events.

(** ** Notions used to state the properties of the client *)

(** [m] keeps the property [P] of the world, however it ends. *)
Definition preserves (P : World -> Prop) {A} (m : M A) : Prop :=
  forall w, P w -> P (snd (m w)).

(** The selected file, once there is one, is a PDF. *)
Definition selectedIsPdf (s : AppState) : Prop :=
  forall f, selectedFile s = Some f -> File.type f = "application/pdf".

(** The state in which [processPDF] enters its [try] block. *)
Definition started (s : AppState) : AppState :=
  mkApp (updateNodes "processing" {[ "status" := Js.Str "processing" ]} (nodes s))
        (updateEdges "pdf-processing" true (edges s))
        (selectedFile s) (results s) true None (apiStatus s) (ocrApiStatus s).

(** ** The functions of the render, and the download of the results *)

(** [data.k] on the data of a node. *)
Definition dataProp (data : gmap string Js.value) (k : string) : Js.value :=
  default Js.Undefined (data !! k).

(** [v === 'literal'] *)
Definition isStr (v : Js.value) (literal : string) : bool :=
  match v with
  | Js.Str s => String.eqb s literal
  | _ => false
  end.

(** [PDFNode]: the child under the title, [data.fileName || 'No file selected']. *)
Definition PDFNode (data : gmap string Js.value) : Js.value :=
  Js.or (dataProp data "fileName") (Js.Str "No file selected").

(** [ProcessingNode]: the texts of the three [&&] blocks that render. *)
Definition ProcessingNode (data : gmap string Js.value) : list string :=
  ((if isStr (dataProp data "status") "processing" then ["Processing..."] else []) ++
   (if isStr (dataProp data "status") "completed" then ["Completed"] else []) ++
   (if isStr (dataProp data "status") "idle" then ["FastAPI + olmocr-7b"] else []))%list.

(** [OutputNode]: [data.hasResults ? 'Entities & Tables' : 'No results yet']. *)
Definition OutputNode (data : gmap string Js.value) : string :=
  if Js.truthy (dataProp data "hasResults") then "Entities & Tables"
  else "No results yet".

(** [nodeTypes]: the component that renders a node, chosen by its type;
    [None] for a type the table does not have. *)
Definition nodeTypes (type : string) : option (gmap string Js.value -> list Js.value) :=
  if String.eqb type "pdfNode" then Some (fun data => [PDFNode data])
  else if String.eqb type "processingNode"
       then Some (fun data => Js.Str <$> ProcessingNode data)
  else if String.eqb type "outputNode"
       then Some (fun data => [Js.Str (OutputNode data)])
  else None.

(** The [disabled] attribute of the Process button. *)
Definition processDisabled (s : AppState) : bool :=
  negb (bool_decide (is_Some (selectedFile s)))
  || isProcessing s
  || String.eqb (apiStatus s) "offline".

(** The text of the drop area. *)
Definition dropAreaText (s : AppState) : string :=
  match selectedFile s with
  | Some file => File.name file
  | None => "Drop your PDF here"
  end.

(** [{error && (...)}]: the message of the error banner, when it shows. *)
Definition errorBanner (s : AppState) : option string :=
  match error s with
  | Some e => if String.eqb e "" then None else Some e
  | None => None
  end.

(** The [a] element [downloadResults] clicks. *)
Record Link : Type := mkLink { href : string; download : string }.

Section Download.

(** [JSON.stringify(results, null, 2)] and [encodeURIComponent] are the
    browser's; the handler is stated over them. *)
Variable stringify : Results -> string.
Variable encodeURIComponent : string -> string.

(** [downloadResults]: the links it clicks. *)
Definition downloadResults (s : AppState) : list Link :=
  match results s with
  | None => []
  | Some r =>
      [mkLink ("data:application/json;charset=utf-8," +:+ encodeURIComponent (stringify r))
              "pdf-extraction-results.json"]
  end.

End Download.

(** ** Notions used to state further properties of the client *)

(** A health response that [checkApiHealth] takes for a live backend: an ok
    status and a body that is JSON other than [null]. *)
Definition healthy (net : FetchOutcome) : bool :=
  match net with
  | FetchResolves (mkResponse true _ (JsonResolves data)) =>
      match Js.get data "ocr_api_status" with
      | Some _ => true
      | None => false
      end
  | _ => false
  end.

(** The OCR status [checkApiHealth] stores for an answer. *)
Definition reportedOcrStatus (net : FetchOutcome) : Js.value :=
  match net with
  | FetchResolves (mkResponse true _ (JsonResolves data)) =>
      match Js.get data "ocr_api_status" with
      | Some v => Js.or v (Js.Str "unknown")
      | None => Js.Str "unknown"
      end
  | _ => Js.Str "unknown"
  end.

(** The answer to the last health check of a session, if there was one. *)
Definition lastHealthCheck (events : list Event) : option FetchOutcome :=
  foldl (fun acc e => match e with
                      | HealthChecked net => Some net
                      | _ => acc
                      end) None events.

(** The request [processPDF] sends for a file. *)
Definition processRequest (file : File.t) : Call :=
  mkCall (API_BASE_URL +:+ "/process-pdf") "POST" (Some file).

(** The state [processPDF] ends in when the [try] block ran to its end with
    the results [res]. *)
Definition succeeded (s : AppState) (res : Results) : AppState :=
  mkApp (updateNodes "output" {[ "hasResults" := Js.Bool true ]}
           (updateNodes "processing" {[ "status" := Js.Str "completed" ]}
              (updateNodes "processing" {[ "status" := Js.Str "processing" ]} (nodes s))))
        (updateEdges "pdf-processing" false
           (updateEdges "processing-output" true
              (updateEdges "pdf-processing" true (edges s))))
        (selectedFile s) (Some res) false None (apiStatus s) (ocrApiStatus s).

(** The state [processPDF] ends in when the [try] block threw an exception
    with the message [msg]. *)
Definition failedWith (s : AppState) (msg : string) : AppState :=
  mkApp (updateNodes "processing" {[ "status" := Js.Str "processing" ]} (nodes s))
        (updateEdges "pdf-processing" false
           (updateEdges "pdf-processing" true (edges s)))
        (selectedFile s) (results s) false
        (Some ("Failed to process PDF: " +:+ msg)) (apiStatus s) (ocrApiStatus s).

(** The results [processPDF] builds from a response: the response is ok,
    its body says [success], and [res] is read off the body. *)
Definition resultsOf (net : FetchOutcome) (res : Results) : Prop :=
  exists code data success ocr_result,
    net = FetchResolves (mkResponse true code (JsonResolves data)) /\
    Js.get data "success" = Some success /\ Js.truthy success = true /\
    Js.get data "extracted_text" = Some (text res) /\
    Js.get data "ocr_result" = Some ocr_result /\
    Js.get ocr_result "entities" = Some (entities res) /\
    Js.get ocr_result "tables" = Some (tables res).

(** The graph as it stands for a selected file, a status of the processing
    node and the results. *)
Definition graphFor (selected : option File.t) (status : string)
    (res : option Results) : list Node.t :=
  [ Node.mk "pdf" "pdfNode" (0, 100)%Z
      {[ "fileName" := match selected with
                       | Some file => Js.Str (File.name file)
                       | None => Js.Null
                       end ]};
    Node.mk "processing" "processingNode" (300, 100)%Z {[ "status" := Js.Str status ]};
    Node.mk "output" "outputNode" (600, 100)%Z
      {[ "hasResults" := Js.Bool (bool_decide (is_Some res)) ]} ].

Definition edgesFor (res : option Results) : list Edge.t :=
  [ Edge.mk "pdf-processing" "pdf" "processing" false edgeStyle;
    Edge.mk "processing-output" "processing" "output" (bool_decide (is_Some res)) edgeStyle ].

(** The graph mirrors the state: the pdf node names the selected file, the
    output node and the second edge tell whether there are results, the
    processing node is idle until a request went out and completed only
    with results, and nothing is in progress. *)
Definition graphMirrorsState (s : AppState) : Prop :=
  exists status,
    nodes s = graphFor (selectedFile s) status (results s) /\
    edges s = edgesFor (results s) /\
    isProcessing s = false /\
    ((status = "idle" /\ results s = None) \/
     status = "processing" \/
     (status = "completed" /\ is_Some (results s))).

(** The state a handler leaves when it accepts [file]. *)
Definition accepted (s : AppState) (file : File.t) : AppState :=
  mkApp (updateNodes "pdf" {[ "fileName" := Js.Str (File.name file) ]} (nodes s))
        (edges s) (Some file) (results s) (isProcessing s) None
        (apiStatus s) (ocrApiStatus s).

(** The state a handler leaves when all it does is to report [msg]. *)
Definition reported (s : AppState) (msg : string) : AppState :=
  mkApp (nodes s) (edges s) (selectedFile s) (results s) (isProcessing s)
        (Some msg) (apiStatus s) (ocrApiStatus s).

(** The file the last accepting event of a session selected: the first file
    of the last choice or drop that was led by a PDF. *)
Definition lastAccepted (events : list Event) : option File.t :=
  foldl (fun acc e =>
           match e with
           | FileChosen (file :: _) | FilesDropped (file :: _) =>
               if String.eqb (File.type file) "application/pdf" then Some file else acc
           | _ => acc
           end) None events.

(** For each node of the state, what the component that [nodeTypes] has
    for its type returns for its data.  These are the return values of the
    three functions; React Flow calls them when a render of
    [PDFProcessorApp] ran to its end, which it does not when the results
    section throws (reading [results.entities.names] of results whose
    entities have no [names], for one). *)
Definition componentOutputs (s : AppState) : list (option (list Js.value)) :=
  map (fun node => (fun component => component (Node.data node))
                     <$> nodeTypes (Node.type node))
      (nodes s).

(** * The extraction-and-parsing pipeline, from its contract

    The server (backend/main.py) is not among the sources at hand; what
    follows is written from the specification of the pipeline: its data
    model (section 3), its components (section 4) and its failure policy
    (section 7). *)

Module Pipeline.

(** Modelled from the spec: the TextChunk of the data model, absent from the
    sources: a zero-based index, the content, and the offset of the content
    in the text. *)
Record TextChunk : Type := mkChunk {
  index : nat;
  content : string;
  charOffset : nat
}.

(** Modelled from the spec: the EntitySet of the data model, absent from
    the sources; each field is kept in insertion order. *)
Record EntitySet : Type := mkEntitySet {
  names : list string;
  dates : list string;
  addresses : list string
}.

(** Modelled from the spec: the Table of the data model, absent from the
    sources. *)
Record Table : Type := mkTable {
  headers : list string;
  rows : list (list string)
}.

(** Modelled from the spec: the ProcessingResult of the data model, absent
    from the sources. *)
Record ProcessingResult : Type := mkResult {
  extractedText : string;
  entities : EntitySet;
  tables : list Table;
  success : bool;
  errorMessage : option string
}.

(** Modelled from the spec: the hard errors of the taxonomy (section 7),
    absent from the sources; [ClientError] is the 4xx-equivalent class that
    is never retried. *)
Inductive Failure : Type :=
| DocumentCorrupt
| ServiceUnavailable
| ServiceTimeout
| MalformedUpstreamResponse
| ClientError.

(** Modelled from the spec: the liveness states HealthMonitor keeps, absent
    from the sources. *)
Inductive Liveness : Type := Online | Offline | Unknown.

(** Modelled from the spec: what TextExtractor hands on, absent from the
    sources: the text of the document (empty for a document without a text
    layer), or the failure on bytes that are no PDF. *)
Inductive Extraction : Type :=
| Extracted (text : string)
| NotExtracted.

(** Modelled from the spec: what one call of OCRClient.submit comes back
    with, absent from the sources. *)
Inductive SubmitOutcome : Type :=
| Reply (rawReplyText : string)
| Fails (f : Failure).

(** Modelled from the spec: the OCRExchange of the data model, absent from
    the sources (without its latency); one per chunk and attempt. *)
Record OCRExchange : Type := mkExchange {
  chunkIndex : nat;
  promptText : string;
  outcome : SubmitOutcome
}.

(** ** ChunkPlanner *)

(** Modelled from the spec: the characters ChunkPlanner may split after,
    absent from the sources: blank, tab, line feed, vertical tab, form feed
    and carriage return. *)
Definition isWhitespace (c : Ascii.ascii) : bool :=
  let n := Ascii.nat_of_ascii c in
  (n =? 32)%nat || ((9 <=? n)%nat && (n <=? 13)%nat).

(** The first [n] characters of [s], and what follows them. *)
Fixpoint splitAt (n : nat) (s : string) : string * string :=
  match n, s with
  | S n', String c s' => let (a, b) := splitAt n' s' in (String c a, b)
  | _, _ => ("", s)
  end.

(** Modelled from the spec: ChunkPlanner's "nearest whitespace boundary at
    or before the length limit", absent from the sources: the length of the
    longest prefix of at most [limit] characters that ends in whitespace. *)
Fixpoint boundary (limit : nat) (s : string) : option nat :=
  match limit, s with
  | S limit', String c s' =>
      match boundary limit' s' with
      | Some k => Some (S k)
      | None => if isWhitespace c then Some 1%nat else None
      end
  | _, _ => None
  end.

(** Modelled from the spec: ChunkPlanner's splitting policy, absent from
    the sources: at the whitespace boundary when there is one within the
    limit, at the limit itself when there is none. *)
Definition cutPoint (limit : nat) (s : string) : nat :=
  match boundary limit s with
  | Some k => k
  | None => limit
  end.

(** Modelled from the spec: the trailing sliver ChunkPlanner does not emit,
    absent from the sources: a remainder shorter than 10% of the limit. *)
Definition isSliver (limit : nat) (rest : string) : bool :=
  (10 * String.length rest <? limit)%nat.

(** Modelled from the spec: the loop of ChunkPlanner, absent from the
    sources.  A text within the limit is the last chunk; a longer one is cut,
    unless what would remain is a sliver (under 10% of the limit), which
    stays with the chunk before it.  [fuel] bounds the number of chunks. *)
Fixpoint planFrom (fuel limit index offset : nat) (s : string) : list TextChunk :=
  match fuel with
  | O => []
  | S fuel' =>
      if (String.length s =? 0)%nat then []
      else if (String.length s <=? limit)%nat then [mkChunk index s offset]
      else
        let (chunk, rest) := splitAt (cutPoint limit s) s in
        if isSliver limit rest then [mkChunk index s offset]
        else mkChunk index chunk offset
               :: planFrom fuel' limit (S index) (offset + String.length chunk) rest
  end.

(** Modelled from the spec: ChunkPlanner, absent from the sources; the
    limit [maxChunkLength] is a positive number of characters. *)
Definition ChunkPlanner (text : string) (maxChunkLength : positive) : list TextChunk :=
  planFrom (String.length text) (Pos.to_nat maxChunkLength) 0 0 text.

(** Modelled from the spec: the rejoining of chunks the round-trip property
    speaks of, absent from the sources.  A chunk keeps the whitespace it was
    cut after, so rejoining is concatenation in order. *)
Definition rejoin (chunks : list TextChunk) : string :=
  foldr (fun c acc => content c +:+ acc) "" chunks.

(** ** Entity sets and tables *)

(** Modelled from the spec: insertion into a field of an EntitySet, absent
    from the sources: an entry already there (the same string, case and
    all) is not added again, a new one goes to the end. *)
Definition addUnique (field : list string) (x : string) : list string :=
  if decide (x ∈ field) then field else (field ++ [x])%list.

(** Modelled from the spec: the union with de-duplication of the merge
    policy, absent from the sources. *)
Definition unionDedup (field new : list string) : list string :=
  foldl addUnique field new.

(** Modelled from the spec: the empty EntitySet of a degraded parse, absent
    from the sources. *)
Definition emptyEntitySet : EntitySet := mkEntitySet [] [] [].

(** Modelled from the spec: the merge of two EntitySets, field by field,
    absent from the sources. *)
Definition mergeEntitySets (a b : EntitySet) : EntitySet :=
  mkEntitySet (unionDedup (names a) (names b))
              (unionDedup (dates a) (dates b))
              (unionDedup (addresses a) (addresses b)).

(** Modelled from the spec: the normalization of a table row, absent from
    the sources: cut to the width of the headers, or padded on the right
    with empty strings up to it. *)
Definition normalizeRow (width : nat) (row : list string) : list string :=
  (take width row ++ replicate (width - length row) "")%list.

(** Modelled from the spec: the construction of a Table, absent from the
    sources: every row is normalized to the headers. *)
Definition normalizeTable (headers : list string) (rows : list (list string)) : Table :=
  mkTable headers (map (normalizeRow (length headers)) rows).

(** Every row of a table is as wide as its headers. *)
Definition rowsMatchHeaders (t : Table) : Prop :=
  forall row, row ∈ rows t -> length row = length (headers t).

(** The entries of a list in the order of their first occurrence. *)
Fixpoint firstOccurrences (l : list string) : list string :=
  match l with
  | [] => []
  | x :: rest => x :: filter (fun y => y <> x) (firstOccurrences rest)
  end.

(** ** ResponseParser, OCRClient and the orchestrator *)

(** Modelled from the spec: the fields ResponseParser decodes from a
    structured block, absent from the sources, after coercion to lists and
    with unknown fields gone. *)
Record BlockFields : Type := mkFields {
  blockNames : list string;
  blockDates : list string;
  blockAddresses : list string;
  blockTables : list (list string * list (list string))
}.

(** Modelled from the spec: the tagged result of ResponseParser (design
    notes), absent from the sources. *)
Inductive ParseResult : Type :=
| Parsed (e : EntitySet) (t : list Table)
| Unparsed (rawText : string).

(** Modelled from the spec: the partial EntitySet a parse contributes to
    the merge, absent from the sources: empty for an unparsed reply. *)
Definition partialEntities (r : ParseResult) : EntitySet :=
  match r with
  | Parsed e _ => e
  | Unparsed _ => emptyEntitySet
  end.

(** Modelled from the spec: the tables a parse contributes to the merge,
    absent from the sources: none for an unparsed reply. *)
Definition partialTables (r : ParseResult) : list Table :=
  match r with
  | Parsed _ t => t
  | Unparsed _ => []
  end.

(** Modelled from the spec: the transient classes of OCRClient, absent from
    the sources: the ones that are retried once. *)
Definition transient (f : Failure) : bool :=
  match f with
  | ServiceUnavailable | ServiceTimeout | MalformedUpstreamResponse => true
  | DocumentCorrupt | ClientError => false
  end.

(** Modelled from the spec: the error text of a failed result, absent from
    the sources. *)
Definition failureName (f : Failure) : string :=
  match f with
  | DocumentCorrupt => "DocumentCorrupt"
  | ServiceUnavailable => "ServiceUnavailable"
  | ServiceTimeout => "ServiceTimeout"
  | MalformedUpstreamResponse => "MalformedUpstreamResponse"
  | ClientError => "ClientError"
  end.

(** Modelled from the spec: the result of a request that ends in the
    Failed state, absent from the sources. *)
Definition failed (f : Failure) : ProcessingResult :=
  mkResult "" emptyEntitySet [] false (Some (failureName f)).

Section Components.

(** The syntax of a structured block and the template of the prompt are not
    fixed by the contract; the pipeline is stated over any choice of them. *)
Context {Block : Type}.
Variable locateBlock : string -> option Block.
Variable decodeBlock : Block -> BlockFields.
Variable PromptBuilder : string -> string.

(** The OCR service: what it answers to the given attempt on the given
    chunk. *)
Variable service : nat -> nat -> SubmitOutcome.

(** Modelled from the spec: ResponseParser, absent from the sources: the
    fields of the first well-formed block of the reply, brought into the
    schema; without such a block, the raw reply and nothing else. *)
Definition ResponseParser (reply : string) : ParseResult :=
  match locateBlock reply with
  | Some block =>
      let fields := decodeBlock block in
      Parsed (mkEntitySet (unionDedup [] (blockNames fields))
                          (unionDedup [] (blockDates fields))
                          (unionDedup [] (blockAddresses fields)))
             (map (fun t => normalizeTable (fst t) (snd t)) (blockTables fields))
  | None => Unparsed reply
  end.

(** Modelled from the spec: OCRClient.submit with its one retry, absent
    from the sources: the outcome for the chunk and the exchanges made. *)
Definition submit (c : TextChunk) : SubmitOutcome * list OCRExchange :=
  let exchange o := mkExchange (index c) (PromptBuilder (content c)) o in
  match service (index c) 0 with
  | Reply raw => (Reply raw, [exchange (Reply raw)])
  | Fails f =>
      if transient f
      then (service (index c) 1,
            [exchange (Fails f); exchange (service (index c) 1)])
      else (Fails f, [exchange (Fails f)])
  end.

(** Modelled from the spec: the AwaitingOCR state of the orchestrator,
    absent from the sources: the replies in chunk order, or the first
    terminal failure, which fails the request. *)
Fixpoint awaitOCR (chunks : list TextChunk) : (Failure + list string) * list OCRExchange :=
  match chunks with
  | [] => (inr [], [])
  | c :: rest =>
      match submit c with
      | (Reply raw, log) =>
          match awaitOCR rest with
          | (inr raws, log') => (inr (raw :: raws), (log ++ log')%list)
          | (inl f, log') => (inl f, (log ++ log')%list)
          end
      | (Fails f, log) => (inl f, log)
      end
  end.

(** Modelled from the spec: the merge policy of the orchestrator, absent
    from the sources: entity fields are unioned with de-duplication, tables
    are concatenated, both in chunk order. *)
Definition mergeEntities (parts : list ParseResult) : EntitySet :=
  foldl (fun acc p => mergeEntitySets acc (partialEntities p)) emptyEntitySet parts.

(** Modelled from the spec: the concatenation of the tables in chunk
    order, absent from the sources. *)
Definition mergeTables (parts : list ParseResult) : list Table :=
  concat (map partialTables parts).

(** Modelled from the spec: PipelineOrchestrator, absent from the sources:
    the result of a request and the exchanges with the OCR service. *)
Definition Orchestrator (extraction : Extraction) (health : Liveness)
    (maxChunkLength : positive) : ProcessingResult * list OCRExchange :=
  match extraction with
  | NotExtracted => (failed DocumentCorrupt, [])
  | Extracted text =>
      let chunks := ChunkPlanner text maxChunkLength in
      match health with
      | Offline => (failed ServiceUnavailable, [])
      | Online | Unknown =>
          match awaitOCR chunks with
          | (inl f, log) => (failed f, log)
          | (inr raws, log) =>
              let parts := map ResponseParser raws in
              (mkResult (rejoin chunks) (mergeEntities parts) (mergeTables parts)
                        true None, log)
          end
      end
  end.

End Components.

End Pipeline.

(** * Properties of the client *)

Ltac unfold_handlers :=
  unfold run, handler, processPDF, submitPDF, reportFailure, windDown,
    checkApiHealth, handleFileUpload, thrown,
    handleDrop, updateNodeData, updateEdgeAnimation, setNodes, setEdges,
    setSelectedFile, setResults, setIsProcessing, setError, setApiStatus,
    setOcrApiStatus, consoleError, throwError, prop, readJson, fetch, modify,
    readState, try_finally, try_catch, throw, bind, ret in *.

Section GraphUpdates.

Lemma updateNodes_length nodeId newData nds :
  length (updateNodes nodeId newData nds) = length nds.
Proof. unfold updateNodes. by rewrite length_map. Qed.

Lemma updateEdges_length edgeId animated eds :
  length (updateEdges edgeId animated eds) = length eds.
Proof. unfold updateEdges. by rewrite length_map. Qed.

Lemma updateNodes_lookup nodeId newData (nds : list Node.t) i :
  updateNodes nodeId newData nds !! i =
  (fun node => if String.eqb (Node.id node) nodeId
               then mergeNodeData newData node else node) <$> nds !! i.
Proof. unfold updateNodes. apply list_lookup_fmap. Qed.

Lemma updateEdges_lookup edgeId animated (eds : list Edge.t) i :
  updateEdges edgeId animated eds !! i =
  (fun edge => if String.eqb (Edge.id edge) edgeId
               then withAnimated animated edge else edge) <$> eds !! i.
Proof. unfold updateEdges. apply list_lookup_fmap. Qed.

Lemma mergeNodeData_lookup newData node k :
  Node.data (mergeNodeData newData node) !! k =
  match newData !! k with
  | Some v => Some v
  | None => Node.data node !! k
  end.
Proof.
  unfold mergeNodeData; simpl. rewrite lookup_union.
  destruct (newData !! k) as [v|] eqn:E; simpl.
  - by destruct (Node.data node !! k).
  - by destruct (Node.data node !! k).
Qed.

(** After [updateEdgeAnimation id a], every edge called [id] has flag [a]. *)
Lemma updateEdges_sets edgeId animated eds edge :
  edge ∈ updateEdges edgeId animated eds ->
  Edge.id edge = edgeId -> Edge.animated edge = animated.
Proof.
  unfold updateEdges. intros Hin Hid.
  apply list_elem_of_fmap in Hin as (e0 & -> & _).
  destruct (String.eqb (Edge.id e0) edgeId) eqn:E; [done|].
  apply String.eqb_neq in E. done.
Qed.

End GraphUpdates.

(** C9.  [updateNodeData nodeId newData] and [updateEdgeAnimation edgeId
    animated] touch only the elements whose id matches.  Position by position:
    a node with another id is returned as it is, a node with the id keeps its
    id, type and position and gets [newData] merged into its data (a field of
    [newData] wins, every other field of the data stays); an edge with
    another id is returned as it is, an edge with the id changes in its
    [animated] flag alone.  The lists keep their length, no other cell of the
    state changes, and nothing is fetched. *)
Theorem update_touches_only_matching_element
    (s : AppState) (nodeId : string) (newData : gmap string Js.value)
    (edgeId : string) (animated : bool) :
  let s1 := fst (run (updateNodeData nodeId newData) s) in
  let s2 := fst (run (updateEdgeAnimation edgeId animated) s) in
  (length (nodes s1) = length (nodes s) /\
   (forall i node, nodes s !! i = Some node ->
      exists node', nodes s1 !! i = Some node' /\
        (Node.id node <> nodeId -> node' = node) /\
        (Node.id node = nodeId ->
           Node.id node' = Node.id node /\
           Node.type node' = Node.type node /\
           Node.position node' = Node.position node /\
           forall k, Node.data node' !! k =
                     match newData !! k with
                     | Some v => Some v
                     | None => Node.data node !! k
                     end)) /\
   edges s1 = edges s /\ selectedFile s1 = selectedFile s /\
   results s1 = results s /\ isProcessing s1 = isProcessing s /\
   error s1 = error s /\ apiStatus s1 = apiStatus s /\
   ocrApiStatus s1 = ocrApiStatus s /\
   snd (run (updateNodeData nodeId newData) s) = []) /\
  (length (edges s2) = length (edges s) /\
   (forall i edge, edges s !! i = Some edge ->
      exists edge', edges s2 !! i = Some edge' /\
        (Edge.id edge <> edgeId -> edge' = edge) /\
        (Edge.id edge = edgeId ->
           Edge.id edge' = Edge.id edge /\
           Edge.source edge' = Edge.source edge /\
           Edge.target edge' = Edge.target edge /\
           Edge.style edge' = Edge.style edge /\
           Edge.animated edge' = animated)) /\
   nodes s2 = nodes s /\ selectedFile s2 = selectedFile s /\
   results s2 = results s /\ isProcessing s2 = isProcessing s /\
   error s2 = error s /\ apiStatus s2 = apiStatus s /\
   ocrApiStatus s2 = ocrApiStatus s /\
   snd (run (updateEdgeAnimation edgeId animated) s) = []).
Proof.
  cbv zeta. split.
  - unfold_handlers; simpl. split; [apply updateNodes_length|].
    split; [|done].
    intros i node Hi. rewrite updateNodes_lookup, Hi; simpl.
    eexists; split; [reflexivity|]. split.
    + intros Hne. apply String.eqb_neq in Hne. by rewrite Hne.
    + intros Heq. apply String.eqb_eq in Heq. rewrite Heq.
      repeat split; try done. apply mergeNodeData_lookup.
  - unfold_handlers; simpl. split; [apply updateEdges_length|].
    split; [|done].
    intros i edge Hi. rewrite updateEdges_lookup, Hi; simpl.
    eexists; split; [reflexivity|]. split.
    + intros Hne. apply String.eqb_neq in Hne. by rewrite Hne.
    + intros Heq. apply String.eqb_eq in Heq. by rewrite Heq.
Qed.

(** On the initial graph: marking the processing node leaves the two other
    nodes alone, and animating one edge leaves the other alone. *)
Lemma update_touches_only_matching_element_witness :
  (fst (run (updateNodeData "processing" {[ "status" := Js.Str "processing" ]})
            initialState)).(nodes) !! 0%nat = initialNodes !! 0%nat /\
  exists edge', (fst (run (updateEdgeAnimation "pdf-processing" true)
                          initialState)).(edges) !! 0%nat = Some edge' /\
                Edge.animated edge' = true.
Proof.
  pose proof (update_touches_only_matching_element initialState "processing"
                {[ "status" := Js.Str "processing" ]} "pdf-processing" true) as H.
  cbv zeta in H.
  destruct H as [(_ & Hn & _) (_ & He & _)].
  split.
  - destruct (Hn 0%nat (Node.mk "pdf" "pdfNode" (0, 100)%Z {[ "fileName" := Js.Null ]})
                eq_refl) as (n' & Hn' & Hsame & _).
    rewrite Hn', Hsame; [reflexivity | simpl; discriminate].
  - destruct (He 0%nat (Edge.mk "pdf-processing" "pdf" "processing" false edgeStyle)
                eq_refl) as (e' & He' & _ & Hset).
    exists e'. split; [exact He' | apply Hset; reflexivity].
Defined.

(** ** Reasoning about handlers without following every path *)

Section Preservation.

Context (P : World -> Prop).

Lemma preserves_ret {A} (a : A) : preserves P (ret a).
Proof. by intros w. Qed.

Lemma preserves_throw {A} (e : Exn) : preserves P (@throw A e).
Proof. by intros w. Qed.

Lemma preserves_bind {A B} (m : M A) (k : A -> M B) :
  preserves P m -> (forall a, preserves P (k a)) -> preserves P (bind m k).
Proof.
  intros Hm Hk w Hw. unfold bind. specialize (Hm w Hw).
  destruct (m w) as [[a|e] w']; simpl in *; [by apply Hk | done].
Qed.

Lemma preserves_try_catch {A} (m : M A) (h : Exn -> M A) :
  preserves P m -> (forall e, preserves P (h e)) -> preserves P (try_catch m h).
Proof.
  intros Hm Hh w Hw. unfold try_catch. specialize (Hm w Hw).
  destruct (m w) as [[a|e] w']; simpl in *; [done | by apply Hh].
Qed.

Lemma preserves_try_finally {A} (m : M A) (f : M unit) :
  preserves P m -> preserves P f -> preserves P (try_finally m f).
Proof.
  intros Hm Hf w Hw. unfold try_finally. specialize (Hm w Hw).
  destruct (m w) as [r w']; simpl in *. specialize (Hf w' Hm).
  by destruct (f w') as [[[]|e] w''].
Qed.

Lemma preserves_modify (f : AppState -> AppState) :
  (forall w, P w -> P (mkWorld (f (app w)) (calls w) (console w))) ->
  preserves P (modify f).
Proof. intros Hf w Hw. by apply Hf. Qed.

Lemma preserves_readState : preserves P readState.
Proof. by intros w. Qed.

Lemma preserves_readJson r : preserves P (readJson r).
Proof. intros w Hw. unfold readJson. by destruct (json r). Qed.

Lemma preserves_prop v k : preserves P (prop v k).
Proof. intros w Hw. unfold prop. by destruct (Js.get v k). Qed.

Lemma preserves_throwError {A} v : preserves P (@throwError A v).
Proof. by intros w. Qed.

End Preservation.

Create HintDb handlers.
#[local] Hint Resolve preserves_ret preserves_throw preserves_readState
  preserves_readJson preserves_prop preserves_throwError : handlers.

(** Breaks a handler down to its updates of the state and of the logs. *)
Ltac preserve_steps :=
  repeat first
    [ apply preserves_bind; [|intros ?]
    | apply preserves_try_finally
    | apply preserves_try_catch; [|intros ?]
    | match goal with
      | |- preserves _ (if ?b then _ else _) => destruct b
      | |- preserves _ (match ?x with _ => _ end) => destruct x
      end
    | solve [auto with handlers] ].

Ltac unfold_setters :=
  unfold updateNodeData, updateEdgeAnimation, setNodes, setEdges,
    setSelectedFile, setResults, setIsProcessing, setError, setApiStatus,
    setOcrApiStatus.

Lemma handler_keeps_selectedIsPdf (e : Event) :
  preserves (fun w => selectedIsPdf (app w)) (handler e).
Proof.
  assert (Hfetch : forall c net,
             preserves (fun w => selectedIsPdf (app w)) (fetch c net))
    by (intros c [r|x] w Hw; exact Hw).
  assert (Hlog : forall line,
             preserves (fun w => selectedIsPdf (app w)) (consoleError line))
    by (intros line w Hw; exact Hw).
  destruct e as [net|files|files|net]; simpl.
  - unfold checkApiHealth; unfold_setters.
    preserve_steps; by apply preserves_modify.
  - unfold handleFileUpload.
    destruct (head files) as [file|]; [|by apply preserves_modify].
    destruct (String.eqb (File.type file) "application/pdf") eqn:E;
      [|by apply preserves_modify].
    apply String.eqb_eq in E. intros w _ f; simpl. congruence.
  - unfold handleDrop.
    destruct files as [|file rest]; [by auto with handlers|].
    destruct (String.eqb (File.type file) "application/pdf") eqn:E;
      [|by apply preserves_modify].
    apply String.eqb_eq in E. intros w _ f; simpl. congruence.
  - unfold processPDF, submitPDF, reportFailure, windDown; unfold_setters.
    preserve_steps; by apply preserves_modify.
Qed.

Lemma reachable_selectedIsPdf (events : list Event) : selectedIsPdf (stateAfter events).
Proof.
  unfold stateAfter. induction events as [|e events IH] using rev_ind.
  - intros f; discriminate.
  - rewrite foldl_app; simpl. unfold step, run; simpl.
    by apply (handler_keeps_selectedIsPdf e (mkWorld _ [] [])).
Qed.

(** What follows the [fetch] of [processPDF] issues no further request. *)
Lemma submitPDF_calls (file : File.t) (net : FetchOutcome) (h : Exn -> M unit) (w : World) :
  (forall e cs, preserves (fun w => calls w = cs) (h e)) ->
  calls (snd (try_catch (submitPDF file net) h w)) =
  (calls w ++ [mkCall (API_BASE_URL +:+ "/process-pdf") "POST" (Some file)])%list.
Proof.
  intros Hh.
  set (c := mkCall (API_BASE_URL +:+ "/process-pdf") "POST" (Some file)).
  assert (Hfetch : calls (snd (fetch c net w)) = (calls w ++ [c])%list)
    by (unfold fetch; by destruct net).
  unfold submitPDF. fold c.
  match goal with
  | |- calls (snd (try_catch (bind _ ?k) _ _)) = _ => set (rest := k)
  end.
  assert (Hrest : forall r, preserves (fun w' => calls w' = (calls w ++ [c])%list) (rest r)).
  { intros r. subst rest; unfold_setters.
    preserve_steps; by apply preserves_modify. }
  unfold try_catch, bind.
  destruct (fetch c net w) as [[r|e] w1] eqn:E; simpl in Hfetch.
  - specialize (Hrest r w1 Hfetch).
    destruct (rest r w1) as [[a|e] w2]; simpl in *; [done|].
    by apply (Hh e (calls w ++ [c])%list).
  - by apply (Hh e (calls w ++ [c])%list).
Qed.

(** A [catch] block that returns makes the whole [try]/[catch] return. *)
Lemma try_catch_returns (m : M unit) (h : Exn -> M unit) (w : World) :
  (forall e w', fst (h e w') = Returned tt) ->
  fst (try_catch m h w) = Returned tt.
Proof.
  intros Hh. unfold try_catch.
  destruct (m w) as [[[]|e] w']; simpl; [done | apply Hh].
Qed.

(** The state after [try]/[finally] is the one the [finally] block leaves. *)
Lemma try_finally_world {A} (m : M A) (f : M unit) (w : World) :
  snd (try_finally m f w) = snd (f (snd (m w))).
Proof.
  unfold try_finally. destruct (m w) as [r w']; simpl.
  by destruct (f w') as [[[]|e] w''].
Qed.

Lemma try_finally_outcome {A} (m : M A) (f : M unit) (w : World) :
  (forall w', fst (f w') = Returned tt) ->
  fst (try_finally m f w) = fst (m w).
Proof.
  intros Hf. unfold try_finally. destruct (m w) as [r w']; simpl.
  specialize (Hf w'). by destruct (f w') as [[[]|e] w'']; simpl in *.
Qed.

(** C7 as it is worded fails: a text file dropped together with a PDF, and
    after it in the list, is a dropped file that is no PDF, and the handler
    reports nothing about it: it looks at the first file only, accepts the
    PDF and clears the error. *)
Lemma dropped_non_pdf_after_pdf_is_not_reported :
  let notes := File.mk "notes.txt" "text/plain" in
  let report := File.mk "report.pdf" "application/pdf" in
  let s' := fst (run (handleDrop [report; notes]) initialState) in
  notes ∈ [report; notes] /\ File.type notes <> "application/pdf" /\
  error s' = None /\ selectedFile s' = Some report.
Proof.
  cbv zeta. split; [by right; left|]. split; [discriminate|]. split; reflexivity.
Qed.

(** C7, amended.  No file that is not a PDF is ever accepted: after a
    change of the file input or a drop, in any state a session reaches, the
    selected file is none of the files of the list whose MIME type is not
    [application/pdf], wherever they stand in the list.  The validation
    error is for the first file of the list, the only one the handlers look
    at: when its type is not [application/pdf] the handler sets the
    validation message as the error and leaves the selected file, the graph
    and the results as they were, and fetches nothing; when it is
    [application/pdf] the error is cleared, whatever follows it in the
    list. *)
Theorem non_pdf_upload_is_refused
    (s : AppState) (file : File.t) (others : list File.t) :
  File.type file <> "application/pdf" ->
  let chosen := run (handleFileUpload (file :: others)) s in
  let dropped := run (handleDrop (file :: others)) s in
  (error (fst chosen) = Some "Please select a valid PDF file" /\
   error (fst dropped) = Some "Please drop a valid PDF file") /\
  (selectedFile (fst chosen) = selectedFile s /\
   selectedFile (fst dropped) = selectedFile s) /\
  ((exists events, s = stateAfter events) ->
   selectedFile (fst chosen) <> Some file /\
   selectedFile (fst dropped) <> Some file) /\
  (nodes (fst chosen) = nodes s /\ edges (fst chosen) = edges s /\
   results (fst chosen) = results s /\ snd chosen = []) /\
  (nodes (fst dropped) = nodes s /\ edges (fst dropped) = edges s /\
   results (fst dropped) = results s /\ snd dropped = []) /\
  (forall events files refused,
     refused ∈ files -> File.type refused <> "application/pdf" ->
     selectedFile (stateAfter (events ++ [FileChosen files])) <> Some refused /\
     selectedFile (stateAfter (events ++ [FilesDropped files])) <> Some refused) /\
  (forall first rest,
     File.type first = "application/pdf" ->
     error (fst (run (handleFileUpload (first :: rest)) s)) = None /\
     error (fst (run (handleDrop (first :: rest)) s)) = None).
Proof.
  intros Hmime. cbv zeta. split; [|split; [|split; [|split; [|split; [|split]]]]];
    try (apply String.eqb_neq in Hmime;
         unfold run, handleFileUpload, handleDrop; simpl; rewrite Hmime; done).
  - intros [events ->].
    apply String.eqb_neq in Hmime.
    unfold run, handleFileUpload, handleDrop; simpl; rewrite Hmime.
    unfold_handlers; simpl. apply String.eqb_neq in Hmime.
    split; intros Hsel; by apply reachable_selectedIsPdf in Hsel.
  - intros events files refused _ Hrefused.
    split; intros Hsel; by apply reachable_selectedIsPdf in Hsel.
  - intros first rest Hpdf. apply String.eqb_eq in Hpdf.
    unfold run, handleFileUpload, handleDrop; simpl. by rewrite Hpdf.
Qed.

(** A text file chosen, or dropped, while a PDF is selected. *)
Lemma non_pdf_upload_is_refused_witness :
  let s := stateAfter [FileChosen [File.mk "report.pdf" "application/pdf"]] in
  let notes := File.mk "notes.txt" "text/plain" in
  error (fst (run (handleFileUpload [notes]) s)) = Some "Please select a valid PDF file" /\
  error (fst (run (handleDrop [notes]) s)) = Some "Please drop a valid PDF file" /\
  selectedFile (fst (run (handleDrop [notes]) s)) =
    Some (File.mk "report.pdf" "application/pdf").
Proof.
  cbv zeta.
  assert (Hmime : File.type (File.mk "notes.txt" "text/plain") <> "application/pdf")
    by (simpl; discriminate).
  pose proof (non_pdf_upload_is_refused
                (stateAfter [FileChosen [File.mk "report.pdf" "application/pdf"]])
                (File.mk "notes.txt" "text/plain") [] Hmime) as H.
  cbv zeta in H.
  destruct H as ((Hc & Hd) & (_ & Hsel) & _).
  split; [exact Hc|]. split; [exact Hd|]. rewrite Hsel. reflexivity.
Defined.

Lemma processPDF_past_guards (net : FetchOutcome) (w : World) (file : File.t) :
  selectedFile (app w) = Some file ->
  apiStatus (app w) <> "offline" ->
  processPDF net w =
  try_finally (try_catch (submitPDF file net) reportFailure) windDown
    (mkWorld (started (app w)) (calls w) (console w)).
Proof.
  intros Hsel Hon. apply String.eqb_neq in Hon.
  unfold processPDF, bind at 1, readState.
  rewrite Hsel, Hon. reflexivity.
Qed.

Lemma reportFailure_calls (e : Exn) (cs : list Call) :
  preserves (fun w => calls w = cs) (reportFailure e).
Proof. by intros w Hw. Qed.

(** Past its guards [processPDF] sends its one request, however the request
    settles. *)
Lemma processPDF_sends (s : AppState) (file : File.t) (net : FetchOutcome) :
  selectedFile s = Some file ->
  apiStatus s <> "offline" ->
  snd (run (processPDF net) s) =
    [mkCall (API_BASE_URL +:+ "/process-pdf") "POST" (Some file)].
Proof.
  intros Hsel Hon. unfold run; simpl.
  rewrite (processPDF_past_guards net (mkWorld s [] []) file Hsel Hon); simpl.
  set (w0 := mkWorld (started s) [] []).
  rewrite try_finally_world.
  pose proof (submitPDF_calls file net reportFailure w0 reportFailure_calls) as Hcalls.
  by destruct (try_catch (submitPDF file net) reportFailure w0) as [r w1].
Qed.

(** C3 as it is worded fails, on states that sessions reach.  After a health
    check that reports the backend alive and the OCR API offline, a click
    sends the request: the guard of [processPDF] reads [apiStatus] alone.
    And after a health check that failed, with no file selected, the
    failure is the one of the guard before: it says that no file is
    selected, not that the service is unavailable. *)
Lemma offline_health_does_not_always_short_circuit :
  let report := File.mk "report.pdf" "application/pdf" in
  let ocr_offline :=
    FetchResolves
      (mkResponse true 200
         (JsonResolves (Js.Obj [("status", Js.Str "healthy");
                                ("ocr_api_status", Js.Str "offline")]))) in
  let unreachable := FetchRejects (mkExn "TypeError" "Failed to fetch") in
  let ocr_down := stateAfter [HealthChecked ocr_offline; FileChosen [report]] in
  let backend_down := stateAfter [HealthChecked unreachable] in
  (ocrApiStatus ocr_down = Js.Str "offline" /\
   snd (run (processPDF unreachable) ocr_down) =
     [mkCall "http://localhost:8000/process-pdf" "POST" (Some report)]) /\
  (apiStatus backend_down = "offline" /\
   error (fst (run (processPDF unreachable) backend_down)) =
     Some "Please select a PDF file first" /\
   error (fst (run (processPDF unreachable) backend_down)) <> Some offlineMessage).
Proof.
  cbv zeta. split; [split; reflexivity|].
  split; [reflexivity|]. split; [reflexivity | discriminate].
Qed.

(** C3, amended.  With the backend status [apiStatus] at 'offline',
    [processPDF] issues no request at all and ends in failure before any
    submission: the error set is the backend-offline message when a file is
    selected (the no-file message of the guard before it otherwise), no
    result is stored, processing is not started and the graph is left as it
    was.  The backend status and the selection are all that decides: no
    request goes out exactly when no file is selected or [apiStatus] is
    'offline', and with a file selected and any other [apiStatus] the
    request goes out, whatever the OCR status is. *)
Theorem offline_backend_short_circuits (s : AppState) (net : FetchOutcome) :
  let out := run (processPDF net) s in
  (apiStatus s = "offline" ->
   snd out = [] /\
   error (fst out) =
     Some (match selectedFile s with
           | Some _ => offlineMessage
           | None => "Please select a PDF file first"
           end) /\
   results (fst out) = results s /\
   isProcessing (fst out) = isProcessing s /\
   nodes (fst out) = nodes s /\ edges (fst out) = edges s) /\
  (snd out = [] <-> selectedFile s = None \/ apiStatus s = "offline") /\
  (forall file, selectedFile s = Some file -> apiStatus s <> "offline" ->
     snd out = [mkCall "http://localhost:8000/process-pdf" "POST" (Some file)]).
Proof.
  cbv zeta.
  assert (Hoffline : apiStatus s = "offline" ->
            run (processPDF net) s =
            (mkApp (nodes s) (edges s) (selectedFile s) (results s) (isProcessing s)
                   (Some (match selectedFile s with
                          | Some _ => offlineMessage
                          | None => "Please select a PDF file first"
                          end))
                   (apiStatus s) (ocrApiStatus s), [])).
  { intros Hoff. destruct s as [nds eds sel res isp err api ocr]; simpl in *.
    subst api. by destruct sel. }
  assert (Hnofile : selectedFile s = None -> snd (run (processPDF net) s) = []).
  { intros Hsel. unfold run, processPDF, bind, readState, setError, modify; simpl.
    by rewrite Hsel. }
  split; [|split].
  - intros Hoff. by rewrite (Hoffline Hoff).
  - split.
    + intros Hnone.
      destruct (selectedFile s) as [file|] eqn:Hsel; [|by left].
      destruct (decide (apiStatus s = "offline")) as [Hoff|Hon]; [by right|].
      by rewrite (processPDF_sends s file net Hsel Hon) in Hnone.
    + intros [Hsel|Hoff]; [by apply Hnofile | by rewrite (Hoffline Hoff)].
  - intros file Hsel Hon. by apply processPDF_sends.
Qed.

(** A file is selected, the last health check failed, the button is clicked:
    nothing is sent, whatever the network would have answered. *)
Lemma offline_backend_short_circuits_witness :
  let s := stateAfter [FileChosen [File.mk "report.pdf" "application/pdf"];
                       HealthChecked (FetchRejects (mkExn "TypeError" "Failed to fetch"))] in
  let out := run (processPDF (FetchResolves (mkResponse true 200 (JsonResolves Js.Null)))) s in
  apiStatus s = "offline" /\ snd out = [] /\ error (fst out) = Some offlineMessage.
Proof.
  cbv zeta.
  assert (Hoff : apiStatus
            (stateAfter [FileChosen [File.mk "report.pdf" "application/pdf"];
                         HealthChecked (FetchRejects (mkExn "TypeError" "Failed to fetch"))])
            = "offline") by reflexivity.
  split; [exact Hoff|].
  destruct (offline_backend_short_circuits
              (stateAfter [FileChosen [File.mk "report.pdf" "application/pdf"];
                           HealthChecked (FetchRejects (mkExn "TypeError" "Failed to fetch"))])
              (FetchResolves (mkResponse true 200 (JsonResolves Js.Null))))
    as (Hshort & _).
  destruct (Hshort Hoff) as (Hcalls & Herr & _).
  split; [exact Hcalls | exact Herr].
Defined.

(** What [processPDF] reports for a response whose status is not ok: the
    [detail] of its body, or the status when the body has none or is no
    JSON. *)
Lemma non_ok_response_message (s : AppState) (file : File.t) (r : Response) :
  selectedFile s = Some file ->
  apiStatus s <> "offline" ->
  ok r = false ->
  let s' := fst (run (processPDF (FetchResolves r)) s) in
  results s' = results s /\
  error s' =
    Some ("Failed to process PDF: " +:+
          match json r with
          | JsonRejects _ => "HTTP error! status: " +:+ pretty (status r)
          | JsonResolves errorData =>
              match Js.get errorData "detail" with
              | Some detail =>
                  message
                    (thrown (Js.or detail
                               (Js.Str ("HTTP error! status: " +:+ pretty (status r)))))
              | None => typeErrorMessage errorData "detail"
              end
          end).
Proof.
  intros Hsel Hon Hok. cbv zeta. unfold run.
  rewrite (processPDF_past_guards _ (mkWorld s [] []) file Hsel Hon).
  unfold_handlers; simpl. rewrite Hok.
  destruct (json r) as [errorData|e]; simpl; [|done].
  by destruct (Js.get errorData "detail").
Qed.

(** However the request settles, [processPDF] either stores results and
    shows no error, or shows an error and leaves the results alone. *)
Lemma processPDF_stores_or_reports (s : AppState) (file : File.t) (net : FetchOutcome) :
  selectedFile s = Some file ->
  apiStatus s <> "offline" ->
  let s' := fst (run (processPDF net) s) in
  (exists res, results s' = Some res /\ error s' = None) \/
  (results s' = results s /\
   exists msg, error s' = Some ("Failed to process PDF: " +:+ msg)).
Proof.
  intros Hsel Hon. cbv zeta.
  destruct net as [r|e].
  - destruct (ok r) eqn:Hok.
    + unfold run.
      rewrite (processPDF_past_guards _ (mkWorld s [] []) file Hsel Hon).
      unfold_handlers; simpl. rewrite Hok.
      destruct (json r) as [data|e]; simpl; [|right; eauto].
      destruct (Js.get data "success") as [success|] eqn:Hs; simpl; [|right; eauto].
      destruct (Js.truthy success); simpl.
      * destruct (Js.get data "extracted_text"); simpl; [|right; eauto].
        destruct (Js.get data "ocr_result") as [ocr|]; simpl; [|right; eauto].
        destruct (Js.get ocr "entities"); simpl; [|right; eauto].
        destruct (Js.get ocr "tables"); simpl; [|right; eauto].
        left; eauto.
      * destruct (Js.get data "error"); simpl; right; eauto.
    + destruct (non_ok_response_message s file r Hsel Hon Hok) as [Hres Herr].
      right. eauto.
  - unfold run.
    rewrite (processPDF_past_guards _ (mkWorld s [] []) file Hsel Hon).
    unfold_handlers; simpl. right; eauto.
Qed.

(** C4 as it is worded fails.  A response with the status 503 and the body
    [{success: false, error: 'ServiceUnavailable'}] takes the error path,
    but the message shown is the status, not the response's [error]: for a
    status that is not ok the client reads [detail].  And a response that
    says [success] without an [ocr_result] does not populate the results:
    reading [entities] of [undefined] throws, and the error path is taken. *)
Lemma response_fields_do_not_always_decide :
  let s := stateAfter [FileChosen [File.mk "report.pdf" "application/pdf"]] in
  let after ok' code body :=
    fst (run (processPDF (FetchResolves (mkResponse ok' code (JsonResolves (Js.Obj body))))) s) in
  let unavailable := [("success", Js.Bool false); ("error", Js.Str "ServiceUnavailable")] in
  let bare := [("success", Js.Bool true); ("extracted_text", Js.Str "text")] in
  (error (after false 503%Z unavailable) =
     Some "Failed to process PDF: HTTP error! status: 503" /\
   error (after false 503%Z unavailable) <>
     Some "Failed to process PDF: ServiceUnavailable") /\
  (Js.truthy (Js.lookup_prop "success" bare) = true /\
   results (after true 200%Z bare) = None /\
   error (after true 200%Z bare) =
     Some ("Failed to process PDF: " +:+ typeErrorMessage Js.Undefined "entities")).
Proof.
  cbv zeta. split; [split; [reflexivity | discriminate]|].
  split; [reflexivity|]. split; reflexivity.
Qed.

(** C4, amended.  Whatever comes back from /process-pdf, the client ends in
    one of two states that cannot be confused: results stored and no error,
    or an error set and the results left as they were.  An ok response
    with an object as body is told apart by its [success] field.  When it
    is truthy and [ocr_result] is neither missing nor [null], the results
    are the response's [extracted_text] and the [entities] and [tables] of
    its [ocr_result], whatever these hold, and no error is set; without an
    [ocr_result] the error path is taken.  When [success] is not truthy,
    the results are left as they were and the error is 'Failed to process
    PDF: ' followed by the response's [error] when that is a string that is
    not empty, and by 'Processing failed' when the response has none.  A
    response with a status that is not ok is a failure whatever its body
    says of [success] and [error]: it is reported with the [detail] of the
    body, or with the status.  An ok response whose body is JSON but no
    object, a body that is no JSON and a request that fails are failures
    too, each with the message given. *)
Theorem response_success_flag_decides
    (s : AppState) (file : File.t) (net : FetchOutcome) :
  selectedFile s = Some file ->
  apiStatus s <> "offline" ->
  let s' := fst (run (processPDF net) s) in
  ((exists res, results s' = Some res /\ error s' = None) \/
   (results s' = results s /\
    exists msg, error s' = Some ("Failed to process PDF: " +:+ msg))) /\
  (forall code props,
     net = FetchResolves (mkResponse true code (JsonResolves (Js.Obj props))) ->
     if Js.truthy (Js.lookup_prop "success" props)
     then
       (forall ents tbls,
          Js.get (Js.lookup_prop "ocr_result" props) "entities" = Some ents ->
          Js.get (Js.lookup_prop "ocr_result" props) "tables" = Some tbls ->
          results s' = Some (mkResults (Js.lookup_prop "extracted_text" props) ents tbls) /\
          error s' = None) /\
       (Js.get (Js.lookup_prop "ocr_result" props) "entities" = None ->
        results s' = results s /\
        error s' = Some ("Failed to process PDF: " +:+
                         typeErrorMessage (Js.lookup_prop "ocr_result" props) "entities"))
     else
       results s' = results s /\
       error s' = Some ("Failed to process PDF: " +:+
                        message (thrown (Js.or (Js.lookup_prop "error" props)
                                               (Js.Str "Processing failed")))) /\
       (forall msg, Js.lookup_prop "error" props = Js.Str msg -> msg <> "" ->
                    error s' = Some ("Failed to process PDF: " +:+ msg)) /\
       (Js.truthy (Js.lookup_prop "error" props) = false ->
        error s' = Some "Failed to process PDF: Processing failed")) /\
  (forall r, net = FetchResolves r -> ok r = false ->
     results s' = results s /\
     error s' =
       Some ("Failed to process PDF: " +:+
             match json r with
             | JsonRejects _ => "HTTP error! status: " +:+ pretty (status r)
             | JsonResolves errorData =>
                 match Js.get errorData "detail" with
                 | Some detail =>
                     message
                       (thrown (Js.or detail
                                  (Js.Str ("HTTP error! status: " +:+ pretty (status r)))))
                 | None => typeErrorMessage errorData "detail"
                 end
             end)) /\
  (forall code data,
     net = FetchResolves (mkResponse true code (JsonResolves data)) ->
     (forall props, data <> Js.Obj props) ->
     results s' = results s /\
     error s' = Some ("Failed to process PDF: " +:+
                      match data with
                      | Js.Undefined | Js.Null => typeErrorMessage data "success"
                      | _ => "Processing failed"
                      end)) /\
  (forall e,
     (net = FetchRejects e \/
      exists code, net = FetchResolves (mkResponse true code (JsonRejects e))) ->
     results s' = results s /\
     error s' = Some ("Failed to process PDF: " +:+ message e)).
Proof.
  intros Hsel Hon. cbv zeta.
  split; [by apply (processPDF_stores_or_reports s file net)|].
  split; [|split; [|split]]; cycle 2.
  - intros code data -> Hobj. unfold run.
    rewrite (processPDF_past_guards _ (mkWorld s [] []) file Hsel Hon).
    unfold_handlers. destruct data; try done. by destruct (Hobj props).
  - intros e [-> |[code ->]]; unfold run;
      rewrite (processPDF_past_guards _ (mkWorld s [] []) file Hsel Hon);
      by unfold_handlers.
  - intros code props ->. unfold run.
    rewrite (processPDF_past_guards _ (mkWorld s [] []) file Hsel Hon).
    unfold_handlers; simpl.
    destruct (Js.truthy (Js.lookup_prop "success" props)) eqn:Hsuccess; simpl.
    + split.
      * intros ents tbls Hents Htbls. rewrite Hents; simpl. rewrite Htbls; simpl. done.
      * intros Hnone. rewrite Hnone; simpl. done.
    + split; [done|]. split; [done|]. split.
      * intros msg Hmsg Hne. rewrite Hmsg. unfold Js.or; simpl.
        apply String.eqb_neq in Hne. by rewrite Hne.
      * intros Hfalsy. unfold Js.or. by rewrite Hfalsy.
  - intros r -> Hok.
    by apply (non_ok_response_message s file r Hsel Hon Hok).
Qed.

(** A success that found nothing, and a failure, from the same state. *)
Lemma response_success_flag_decides_witness :
  let s := stateAfter [FileChosen [File.mk "report.pdf" "application/pdf"]] in
  let empty := Js.Obj [("names", Js.Arr []); ("dates", Js.Arr []); ("addresses", Js.Arr [])] in
  let found_nothing :=
    [("success", Js.Bool true); ("extracted_text", Js.Str "");
     ("ocr_result", Js.Obj [("entities", empty); ("tables", Js.Arr [])])] in
  let failed := [("success", Js.Bool false); ("error", Js.Str "ServiceUnavailable")] in
  let after props :=
    fst (run (processPDF (FetchResolves (mkResponse true 200 (JsonResolves (Js.Obj props))))) s) in
  (results (after found_nothing) = Some (mkResults (Js.Str "") empty (Js.Arr [])) /\
   error (after found_nothing) = None) /\
  (results (after failed) = None /\
   error (after failed) = Some "Failed to process PDF: ServiceUnavailable").
Proof.
  cbv zeta.
  set (s := stateAfter [FileChosen [File.mk "report.pdf" "application/pdf"]]).
  assert (Hsel : selectedFile s = Some (File.mk "report.pdf" "application/pdf"))
    by reflexivity.
  assert (Hon : apiStatus s <> "offline") by (simpl; discriminate).
  split.
  - destruct (response_success_flag_decides s _
                (FetchResolves
                   (mkResponse true 200
                      (JsonResolves
                         (Js.Obj
                            [("success", Js.Bool true); ("extracted_text", Js.Str "");
                             ("ocr_result",
                              Js.Obj [("entities",
                                       Js.Obj [("names", Js.Arr []); ("dates", Js.Arr []);
                                               ("addresses", Js.Arr [])]);
                                      ("tables", Js.Arr [])])]))))
                Hsel Hon) as (_ & Hok & _).
    exact (proj1 (Hok 200%Z _ eq_refl) _ _ eq_refl eq_refl).
  - destruct (response_success_flag_decides s _
                (FetchResolves
                   (mkResponse true 200
                      (JsonResolves
                         (Js.Obj [("success", Js.Bool false);
                                  ("error", Js.Str "ServiceUnavailable")]))))
                Hsel Hon) as (_ & Hok & _).
    destruct (Hok 200%Z _ eq_refl) as (Hres & Herr & _).
    split; [exact Hres | exact Herr].
Defined.

(** C8 as it is worded fails: the health check completes with an ok status
    and a body that carries [ocr_api_status], and the status shown is
    'unknown' all the same, once because the field says so itself, once
    because the field is the empty string, which [||] replaces and which is
    then not mirrored. *)
Lemma ocr_status_unknown_with_field_present :
  let health v := Js.Obj [("status", Js.Str "healthy"); ("ocr_api_status", v)] in
  let shown v :=
    ocrApiStatus
      (fst (run (checkApiHealth
                   (FetchResolves (mkResponse true 200 (JsonResolves (health v)))))
                initialState)) in
  (Js.get (health (Js.Str "unknown")) "ocr_api_status" = Some (Js.Str "unknown") /\
   shown (Js.Str "unknown") = Js.Str "unknown") /\
  (Js.get (health (Js.Str "")) "ocr_api_status" = Some (Js.Str "") /\
   shown (Js.Str "") = Js.Str "unknown" /\
   shown (Js.Str "") <> Js.Str "").
Proof. cbv zeta. repeat split; try reflexivity. discriminate. Qed.

(** C8, amended.  The status shown starts as 'unknown'.  After a health
    check it is the response's [ocr_api_status] when the response is ok, its
    body is read and that field is truthy, and 'unknown' in every other
    case.  So it is 'unknown' exactly when the request fails, the status is
    not ok, the body cannot be read or is [null], or the field is missing,
    falsy ([null], [false], [0], the empty string) or the string 'unknown'
    itself. *)
Theorem ocr_status_after_health_check (s : AppState) (net : FetchOutcome) :
  let s' := fst (run (checkApiHealth net) s) in
  ocrApiStatus initialState = Js.Str "unknown" /\
  ocrApiStatus s' =
    match net with
    | FetchResolves (mkResponse true _ (JsonResolves data)) =>
        match Js.get data "ocr_api_status" with
        | Some v => if Js.truthy v then v else Js.Str "unknown"
        | None => Js.Str "unknown"
        end
    | _ => Js.Str "unknown"
    end /\
  (ocrApiStatus s' = Js.Str "unknown" <->
   forall code data v,
     net = FetchResolves (mkResponse true code (JsonResolves data)) ->
     Js.get data "ocr_api_status" = Some v ->
     Js.truthy v = false \/ v = Js.Str "unknown").
Proof.
  cbv zeta. split; [reflexivity|].
  assert (Hshown : ocrApiStatus (fst (run (checkApiHealth net) s)) =
    match net with
    | FetchResolves (mkResponse true _ (JsonResolves data)) =>
        match Js.get data "ocr_api_status" with
        | Some v => if Js.truthy v then v else Js.Str "unknown"
        | None => Js.Str "unknown"
        end
    | _ => Js.Str "unknown"
    end).
  { unfold_handlers.
    destruct net as [[[] code [data|e]]|e]; simpl; try reflexivity.
    destruct (Js.get data "ocr_api_status") as [v|]; simpl; reflexivity. }
  split; [exact Hshown|]. rewrite Hshown. split.
  - intros Hunknown code data v -> Hv. rewrite Hv in Hunknown.
    destruct (Js.truthy v); [right; exact Hunknown | by left].
  - intros Hall. destruct net as [[[] code [data|e]]|e]; try reflexivity.
    destruct (Js.get data "ocr_api_status") as [v|] eqn:Hv; [|reflexivity].
    destruct (Hall code data v eq_refl Hv) as [Hfalsy| ->]; [|reflexivity].
    by rewrite Hfalsy.
Qed.

(** A health response that reports the OCR service online. *)
Lemma ocr_status_after_health_check_witness :
  ocrApiStatus
    (fst (run (checkApiHealth
                 (FetchResolves
                    (mkResponse true 200
                       (JsonResolves
                          (Js.Obj [("status", Js.Str "healthy");
                                   ("ocr_api_status", Js.Str "online")])))))
              initialState)) = Js.Str "online".
Proof.
  destruct (ocr_status_after_health_check initialState
              (FetchResolves
                 (mkResponse true 200
                    (JsonResolves
                       (Js.Obj [("status", Js.Str "healthy");
                                ("ocr_api_status", Js.Str "online")])))))
    as (_ & Hshown & _).
  exact Hshown.
Defined.

(** * Properties of the pipeline contract *)

Section ChunkPlannerFacts.

Import Pipeline.

Lemma append_cons (c : Ascii.ascii) (a b : string) :
  String c a +:+ b = String c (a +:+ b).
Proof. reflexivity. Qed.

Lemma append_empty_r (a : string) : a +:+ "" = a.
Proof. induction a as [|c a IH]; [done | by rewrite append_cons, IH]. Qed.

Lemma length_append (a b : string) :
  String.length (a +:+ b) = (String.length a + String.length b)%nat.
Proof.
  induction a as [|c a IH]; [done | rewrite append_cons; simpl; by rewrite IH].
Qed.

Lemma splitAt_append (n : nat) (s : string) :
  fst (splitAt n s) +:+ snd (splitAt n s) = s.
Proof.
  revert s. induction n as [|n IH]; intros [|c s]; simpl; try done.
  specialize (IH s). destruct (splitAt n s) as [a b]; simpl in *.
  by rewrite append_cons, IH.
Qed.

Lemma splitAt_length (n : nat) (s : string) :
  (n <= String.length s)%nat -> String.length (fst (splitAt n s)) = n.
Proof.
  revert s. induction n as [|n IH]; intros [|c s] Hn; simpl in *; try done; try lia.
  specialize (IH s). destruct (splitAt n s) as [a b]; simpl in *.
  rewrite IH; [done | lia].
Qed.

Lemma boundary_bounds (limit : nat) (s : string) (k : nat) :
  boundary limit s = Some k ->
  (1 <= k)%nat /\ (k <= limit)%nat /\ (k <= String.length s)%nat.
Proof.
  revert s k. induction limit as [|limit IH]; intros [|c s] k; simpl; try done.
  destruct (boundary limit s) as [k'|] eqn:E.
  - intros [= <-]. destruct (IH s k' E) as (? & ? & ?). lia.
  - destruct (isWhitespace c); [|done]. intros [= <-]. lia.
Qed.

(** A cut takes at least one character and at most [limit], as long as the
    text is longer than the limit. *)
Lemma cutPoint_bounds (limit : nat) (s : string) :
  (0 < limit)%nat -> (limit < String.length s)%nat ->
  (1 <= cutPoint limit s)%nat /\ (cutPoint limit s <= limit)%nat.
Proof.
  intros Hpos Hlong. unfold cutPoint.
  destruct (boundary limit s) as [k|] eqn:E; [|lia].
  destruct (boundary_bounds _ _ _ E) as (? & ? & ?). lia.
Qed.

(** The chunks, put together again, are the text: nothing is lost and
    nothing comes twice. *)
Lemma planFrom_rejoin (fuel limit index offset : nat) (s : string) :
  (0 < limit)%nat -> (String.length s <= fuel)%nat ->
  rejoin (planFrom fuel limit index offset s) = s.
Proof.
  intros Hpos. revert index offset s.
  induction fuel as [|fuel IH]; intros index offset s Hfuel; simpl.
  - destruct s; simpl in *; [done | lia].
  - destruct (String.length s =? 0)%nat eqn:Hempty.
    { apply Nat.eqb_eq in Hempty. by destruct s. }
    destruct (String.length s <=? limit)%nat eqn:Hshort.
    { simpl. apply append_empty_r. }
    apply Nat.leb_gt in Hshort.
    destruct (cutPoint_bounds limit s Hpos Hshort) as [Hcut1 Hcut2].
    pose proof (splitAt_append (cutPoint limit s) s) as Happ.
    pose proof (splitAt_length (cutPoint limit s) s ltac:(lia)) as Hlen.
    destruct (splitAt (cutPoint limit s) s) as [chunk rest]; simpl in *.
    destruct (isSliver limit rest).
    { simpl. apply append_empty_r. }
    simpl. rewrite IH; [done|].
    apply (f_equal String.length) in Happ. rewrite length_append in Happ. lia.
Qed.

(** The layout of the chunks: the [j]-th chunk has index [j] (counted from
    the first index), is not empty, and starts where the chunks before it
    end. *)
Lemma planFrom_layout (fuel limit index offset : nat) (s : string) :
  (0 < limit)%nat ->
  forall j c, planFrom fuel limit index offset s !! j = Some c ->
    Pipeline.index c = (index + j)%nat /\
    content c <> "" /\
    charOffset c =
      (offset + String.length (rejoin (take j (planFrom fuel limit index offset s))))%nat.
Proof.
  intros Hpos. revert index offset s.
  induction fuel as [|fuel IH]; intros index offset s j c; simpl; [done|].
  destruct (String.length s =? 0)%nat eqn:Hempty; [done|].
  apply Nat.eqb_neq in Hempty.
  assert (Hlast : [mkChunk index s offset] !! j = Some c ->
            Pipeline.index c = (index + j)%nat /\ content c <> "" /\
            charOffset c =
              (offset + String.length (rejoin (take j [mkChunk index s offset])))%nat).
  { destruct j as [|j]; simpl; [|done]. intros [= <-]; simpl.
    split; [lia|]. split; [|lia]. by destruct s. }
  destruct (String.length s <=? limit)%nat eqn:Hshort; [exact Hlast|].
  apply Nat.leb_gt in Hshort.
  destruct (cutPoint_bounds limit s Hpos Hshort) as [Hcut1 Hcut2].
  pose proof (splitAt_length (cutPoint limit s) s ltac:(lia)) as Hlen.
  destruct (splitAt (cutPoint limit s) s) as [chunk rest]; simpl in *.
  destruct (isSliver limit rest); [exact Hlast|].
  destruct j as [|j]; simpl.
  - intros [= <-]; simpl. split; [lia|]. split; [|lia].
    destruct chunk; simpl in *; [lia | done].
  - intros Hc. destruct (IH _ _ _ _ _ Hc) as (Hi & Hne & Hoff).
    split; [lia|]. split; [done|]. rewrite Hoff, length_append. lia.
Qed.

Lemma ChunkPlanner_rejoin (T : string) (L : positive) :
  rejoin (ChunkPlanner T L) = T.
Proof.
  unfold ChunkPlanner. apply planFrom_rejoin; [apply Pos2Nat.is_pos | done].
Qed.

End ChunkPlannerFacts.

(** C2.  For every text and every chunk size, the chunks of ChunkPlanner
    rejoined in order are the text itself, and they tile it: the chunk at
    position [j] carries index [j], is not empty, and its offset is the
    total length of the chunks before it, so that no character is lost and
    none comes twice. *)
Theorem chunks_reconstruct_text (T : string) (L : positive) :
  Pipeline.rejoin (Pipeline.ChunkPlanner T L) = T /\
  forall j c, Pipeline.ChunkPlanner T L !! j = Some c ->
    Pipeline.index c = j /\
    Pipeline.content c <> "" /\
    Pipeline.charOffset c =
      String.length (Pipeline.rejoin (take j (Pipeline.ChunkPlanner T L))).
Proof.
  split; [apply ChunkPlanner_rejoin|].
  unfold Pipeline.ChunkPlanner. intros j c Hc.
  destruct (planFrom_layout _ _ 0 0 T (Pos2Nat.is_pos L) j c Hc) as (Hi & Hne & Hoff).
  by rewrite Hi, Hoff.
Qed.

(** The birth notice in chunks of at most ten characters. *)
Lemma chunks_reconstruct_text_witness :
  let T := "John Smith was born 01/02/1990 at 123 Main St." in
  Pipeline.rejoin (Pipeline.ChunkPlanner T 10) = T /\
  Pipeline.charOffset <$> Pipeline.ChunkPlanner T 10 !! 2%nat = Some 15%nat.
Proof.
  cbv zeta.
  destruct (chunks_reconstruct_text
              "John Smith was born 01/02/1990 at 123 Main St." 10) as [Hjoin Htile].
  split; [exact Hjoin|].
  destruct (Htile 2%nat (Pipeline.mkChunk 2 "born " 15) eq_refl) as (_ & _ & Hoff).
  reflexivity.
Defined.

Section EntityAndTableFacts.

Import Pipeline.

Lemma elem_of_addUnique (field : list string) (x y : string) :
  y ∈ addUnique field x <-> y ∈ field \/ y = x.
Proof.
  unfold addUnique. destruct (decide (x ∈ field)) as [Hin|Hout].
  - split; [by left | intros [H| ->]; done].
  - rewrite elem_of_app, list_elem_of_singleton. done.
Qed.

Lemma addUnique_NoDup (field : list string) (x : string) :
  NoDup field -> NoDup (addUnique field x).
Proof.
  intros Hnd. unfold addUnique. destruct (decide (x ∈ field)) as [Hin|Hout]; [done|].
  apply NoDup_app. split; [done|]. split; [|apply NoDup_singleton].
  intros y Hy Hy'. apply list_elem_of_singleton in Hy'. by subst.
Qed.

Lemma unionDedup_NoDup (field new : list string) :
  NoDup field -> NoDup (unionDedup field new).
Proof.
  unfold unionDedup. revert field.
  induction new as [|x new IH]; intros field Hnd; simpl; [done|].
  by apply IH, addUnique_NoDup.
Qed.

Lemma elem_of_unionDedup (field new : list string) (y : string) :
  y ∈ unionDedup field new <-> y ∈ field \/ y ∈ new.
Proof.
  unfold unionDedup. revert field.
  induction new as [|x new IH]; intros field; simpl.
  - rewrite elem_of_nil. tauto.
  - rewrite IH, elem_of_addUnique, elem_of_cons. tauto.
Qed.

Lemma unionDedup_app (field l1 l2 : list string) :
  unionDedup field (l1 ++ l2) = unionDedup (unionDedup field l1) l2.
Proof. unfold unionDedup. apply foldl_app. Qed.

Lemma elem_of_firstOccurrences (l : list string) (y : string) :
  y ∈ firstOccurrences l <-> y ∈ l.
Proof.
  induction l as [|x l IH]; simpl; [done|].
  rewrite !elem_of_cons, list_elem_of_filter, IH.
  destruct (decide (y = x)); tauto.
Qed.

Lemma firstOccurrences_NoDup (l : list string) : NoDup (firstOccurrences l).
Proof.
  induction l as [|x l IH]; simpl; [apply NoDup_nil_2|].
  apply NoDup_cons. split.
  - rewrite list_elem_of_filter. tauto.
  - by apply NoDup_filter.
Qed.

(** Insertion one by one keeps what is there and appends, in the order of
    their first occurrence, the entries that are new. *)
Lemma unionDedup_firstOccurrences (field new : list string) :
  unionDedup field new =
  (field ++ filter (fun y => y ∉ field) (firstOccurrences new))%list.
Proof.
  unfold unionDedup. revert field.
  induction new as [|x new IH]; intros field; simpl.
  - by rewrite app_nil_r.
  - rewrite IH. unfold addUnique.
    destruct (decide (x ∈ field)) as [Hin|Hout].
    + rewrite filter_cons_False by tauto. f_equal.
      rewrite list_filter_filter. apply list_filter_iff.
      intros y. split; [|tauto]. intros Hy. split; [done|]. by intros ->.
    + rewrite filter_cons_True by done.
      rewrite <- app_assoc; simpl. do 2 f_equal.
      rewrite list_filter_filter. apply list_filter_iff.
      intros y. rewrite elem_of_app, list_elem_of_singleton. tauto.
Qed.

Lemma unionDedup_nil_l (new : list string) :
  unionDedup [] new = firstOccurrences new.
Proof.
  rewrite unionDedup_firstOccurrences; simpl.
  induction (firstOccurrences new) as [|z l IH]; [done|].
  rewrite filter_cons_True by apply not_elem_of_nil. by rewrite IH.
Qed.

(** A field of the merged set is the union of that field over the parts,
    built up in chunk order. *)
Lemma mergeEntities_field (field : EntitySet -> list string) :
  (forall a b, field (mergeEntitySets a b) = unionDedup (field a) (field b)) ->
  field emptyEntitySet = [] ->
  forall parts,
    field (mergeEntities parts) =
    firstOccurrences (concat (map (fun p => field (partialEntities p)) parts)).
Proof.
  intros Hmerge Hempty parts. rewrite <- unionDedup_nil_l, <- Hempty.
  unfold mergeEntities. generalize emptyEntitySet as acc. clear Hempty.
  induction parts as [|p parts IH]; intros acc; simpl; [done|].
  by rewrite IH, Hmerge, unionDedup_app.
Qed.

Lemma normalizeRow_length (width : nat) (row : list string) :
  length (normalizeRow width row) = width.
Proof.
  unfold normalizeRow. rewrite length_app, length_take, length_replicate. lia.
Qed.

Lemma normalizeRow_short (width : nat) (row : list string) :
  length row <= width ->
  normalizeRow width row = (row ++ replicate (width - length row) "")%list.
Proof. intros H. unfold normalizeRow. by rewrite take_ge. Qed.

Lemma normalizeRow_long (width : nat) (row : list string) :
  width <= length row -> normalizeRow width row = take width row.
Proof.
  intros H. unfold normalizeRow.
  replace (width - length row)%nat with 0%nat by lia. apply app_nil_r.
Qed.

Lemma normalizeTable_rows (hs : list string) (rs : list (list string)) :
  rowsMatchHeaders (normalizeTable hs rs).
Proof.
  intros row Hrow; simpl in *.
  apply list_elem_of_fmap in Hrow as (r0 & -> & _). apply normalizeRow_length.
Qed.

End EntityAndTableFacts.

Section OrchestratorFacts.

Import Pipeline.

Context {Block : Type}.
Variable locateBlock : string -> option Block.
Variable decodeBlock : Block -> BlockFields.
Variable PromptBuilder : string -> string.
Variable service : nat -> nat -> SubmitOutcome.

Lemma ResponseParser_unparsed (reply : string) :
  locateBlock reply = None ->
  ResponseParser locateBlock decodeBlock reply = Unparsed reply.
Proof. intros H. unfold ResponseParser. by rewrite H. Qed.

Lemma ResponseParser_tables (reply : string) (t : Table) :
  t ∈ partialTables (ResponseParser locateBlock decodeBlock reply) ->
  rowsMatchHeaders t.
Proof.
  unfold ResponseParser. destruct (locateBlock reply); simpl.
  - intros Ht. apply list_elem_of_fmap in Ht as ([hs rs] & -> & _).
    apply normalizeTable_rows.
  - by intros ?%elem_of_nil.
Qed.

(** When every chunk gets a reply, be it at the second attempt, the
    orchestrator has all the replies, one per chunk and in chunk order. *)
Lemma awaitOCR_replies (chunks : list TextChunk) :
  (forall c, c ∈ chunks -> exists raw, fst (submit PromptBuilder service c) = Reply raw) ->
  exists raws log,
    awaitOCR PromptBuilder service chunks = (inr raws, log) /\
    Forall2 (fun c raw => fst (submit PromptBuilder service c) = Reply raw) chunks raws.
Proof.
  induction chunks as [|c chunks IH]; intros Hall; simpl.
  - exists [], []. split; [done | constructor].
  - destruct (Hall c) as [raw Hraw]; [by left|].
    destruct IH as (raws & log' & Hrest & Hfor).
    { intros c' Hc'. apply Hall. by right. }
    destruct (submit PromptBuilder service c) as [o log] eqn:Hsubmit.
    simpl in Hraw; subst o.
    rewrite Hrest. exists (raw :: raws), (log ++ log')%list.
    split; [done|]. constructor; [by rewrite Hsubmit | exact Hfor].
Qed.

(** Whether a request succeeds is settled before any reply is parsed. *)
Lemma success_settled_before_parsing {Block' : Type}
    (locateBlock' : string -> option Block') (decodeBlock' : Block' -> BlockFields)
    (extraction : Extraction) (health : Liveness) (L : positive) :
  let r := fst (Orchestrator locateBlock decodeBlock PromptBuilder service
                             extraction health L) in
  let r' := fst (Orchestrator locateBlock' decodeBlock' PromptBuilder service
                              extraction health L) in
  success r' = success r /\ errorMessage r' = errorMessage r /\
  extractedText r' = extractedText r.
Proof.
  cbv zeta. unfold Orchestrator.
  destruct extraction as [text|]; [|done].
  destruct health; try done;
    by destruct (awaitOCR PromptBuilder service (ChunkPlanner text L)) as [[f|raws] log].
Qed.

(** The entities and tables of a result are those merged from the parsed
    replies, or none at all. *)
Lemma Orchestrator_result (extraction : Extraction) (health : Liveness) (L : positive) :
  let r := fst (Orchestrator locateBlock decodeBlock PromptBuilder service
                             extraction health L) in
  (entities r = emptyEntitySet /\ tables r = []) \/
  exists raws,
    entities r = mergeEntities (map (ResponseParser locateBlock decodeBlock) raws) /\
    tables r = mergeTables (map (ResponseParser locateBlock decodeBlock) raws).
Proof.
  cbv zeta. unfold Orchestrator.
  destruct extraction as [text|]; [|by left].
  destruct health; try (by left);
    destruct (awaitOCR PromptBuilder service (ChunkPlanner text L)) as [[f|raws] log];
    simpl; first [by left | right; by exists raws].
Qed.

End OrchestratorFacts.

Lemma mergeEntities_NoDup (parts : list Pipeline.ParseResult) :
  NoDup (Pipeline.names (Pipeline.mergeEntities parts)) /\
  NoDup (Pipeline.dates (Pipeline.mergeEntities parts)) /\
  NoDup (Pipeline.addresses (Pipeline.mergeEntities parts)).
Proof.
  rewrite (mergeEntities_field Pipeline.names), (mergeEntities_field Pipeline.dates),
    (mergeEntities_field Pipeline.addresses) by done.
  repeat split; apply firstOccurrences_NoDup.
Qed.

(** C5.  In the result of every request each field of the merged
    EntitySet is free of duplicates, strings being compared exactly.  The
    merge of the parts of the chunks lists, for each field, the entries of
    the parts in the order of their first occurrence: it holds exactly the
    entries of the parts, each once.  Two chunks that each yield the name
    "John Smith" give one "John Smith", and a name that differs in case
    only is another entry. *)
Theorem merged_entities_have_no_duplicates {Block : Type}
    (locateBlock : string -> option Block)
    (decodeBlock : Block -> Pipeline.BlockFields)
    (PromptBuilder : string -> string)
    (service : nat -> nat -> Pipeline.SubmitOutcome)
    (extraction : Pipeline.Extraction) (health : Pipeline.Liveness) (L : positive) :
  let r := fst (Pipeline.Orchestrator locateBlock decodeBlock PromptBuilder service
                                      extraction health L) in
  (NoDup (Pipeline.names (Pipeline.entities r)) /\
   NoDup (Pipeline.dates (Pipeline.entities r)) /\
   NoDup (Pipeline.addresses (Pipeline.entities r))) /\
  (forall parts : list Pipeline.ParseResult,
     let merged := Pipeline.mergeEntities parts in
     let all field := concat (map (fun p => field (Pipeline.partialEntities p)) parts) in
     (Pipeline.names merged = Pipeline.firstOccurrences (all Pipeline.names) /\
      Pipeline.dates merged = Pipeline.firstOccurrences (all Pipeline.dates) /\
      Pipeline.addresses merged = Pipeline.firstOccurrences (all Pipeline.addresses)) /\
     (forall x, (x ∈ Pipeline.names merged <-> x ∈ all Pipeline.names) /\
                (x ∈ Pipeline.dates merged <-> x ∈ all Pipeline.dates) /\
                (x ∈ Pipeline.addresses merged <-> x ∈ all Pipeline.addresses))) /\
  (forall d1 a1 t1 d2 a2 t2,
     Pipeline.names
       (Pipeline.mergeEntities
          [Pipeline.Parsed (Pipeline.mkEntitySet ["John Smith"] d1 a1) t1;
           Pipeline.Parsed (Pipeline.mkEntitySet ["John Smith"] d2 a2) t2])
     = ["John Smith"]) /\
  Pipeline.unionDedup ["John Smith"] ["john smith"; "John Smith"]
  = ["John Smith"; "john smith"].
Proof.
  cbv zeta. split; [|split; [|split]].
  - destruct (Orchestrator_result locateBlock decodeBlock PromptBuilder service
                extraction health L) as [[-> _]|(raws & -> & _)].
    + repeat split; apply NoDup_nil_2.
    + apply mergeEntities_NoDup.
  - intros parts.
    rewrite (mergeEntities_field Pipeline.names),
      (mergeEntities_field Pipeline.dates),
      (mergeEntities_field Pipeline.addresses) by done.
    split; [done|]. intros x. by rewrite !elem_of_firstOccurrences.
  - intros. by rewrite (mergeEntities_field Pipeline.names).
  - reflexivity.
Qed.

Lemma elem_of_concat {A : Type} (x : A) (ls : list (list A)) :
  x ∈ concat ls <-> exists l, x ∈ l /\ l ∈ ls.
Proof.
  induction ls as [|l0 ls IH]; simpl.
  - split; [by intros ?%elem_of_nil | by intros (l & _ & ?%elem_of_nil)].
  - rewrite elem_of_app, IH. split.
    + intros [H|(l & Hx & Hl)]; [exists l0; split; [done | by left]|].
      exists l. split; [done | by right].
    + intros (l & Hx & Hl). apply elem_of_cons in Hl as [-> | Hl]; [by left|].
      right. by exists l.
Qed.

(** C6.  In the result of every request every row of every table is as
    long as the headers of its table.  Normalization makes it so: a row
    comes out at the width asked for, a shorter one by padding on the right
    with empty strings, a longer one by truncation.  It is a total function,
    and it has no say in whether the request succeeds: with any other
    decoding of the blocks the success flag and the error are the same. *)
Theorem table_rows_match_headers {Block : Type}
    (locateBlock : string -> option Block)
    (decodeBlock : Block -> Pipeline.BlockFields)
    (PromptBuilder : string -> string)
    (service : nat -> nat -> Pipeline.SubmitOutcome)
    (extraction : Pipeline.Extraction) (health : Pipeline.Liveness) (L : positive) :
  let r := fst (Pipeline.Orchestrator locateBlock decodeBlock PromptBuilder service
                                      extraction health L) in
  (forall t row, t ∈ Pipeline.tables r -> row ∈ Pipeline.rows t ->
                 length row = length (Pipeline.headers t)) /\
  (forall width row,
     length (Pipeline.normalizeRow width row) = width /\
     (length row <= width ->
      Pipeline.normalizeRow width row = (row ++ replicate (width - length row) "")%list) /\
     (width <= length row -> Pipeline.normalizeRow width row = take width row)) /\
  (forall decodeBlock',
     let r' := fst (Pipeline.Orchestrator locateBlock decodeBlock' PromptBuilder service
                                          extraction health L) in
     Pipeline.success r' = Pipeline.success r /\
     Pipeline.errorMessage r' = Pipeline.errorMessage r).
Proof.
  cbv zeta. split; [|split].
  - intros t row Ht.
    destruct (Orchestrator_result locateBlock decodeBlock PromptBuilder service
                extraction health L) as [[_ Hnone]|(raws & _ & Htables)].
    + rewrite Hnone in Ht. by apply elem_of_nil in Ht.
    + rewrite Htables in Ht. unfold Pipeline.mergeTables in Ht.
      apply elem_of_concat in Ht as (ts & Ht & Hts).
      apply list_elem_of_fmap in Hts as (p & -> & Hp).
      apply list_elem_of_fmap in Hp as (raw & -> & _).
      by apply (ResponseParser_tables _ _ _ _ Ht).
  - intros width row.
    split; [apply normalizeRow_length|].
    split; [apply normalizeRow_short | apply normalizeRow_long].
  - intros decodeBlock'.
    destruct (success_settled_before_parsing locateBlock decodeBlock PromptBuilder
                service locateBlock decodeBlock' extraction health L) as (? & ? & _).
    done.
Qed.

(** A table with a short and a long row, decoded from a one-chunk reply. *)
Lemma table_rows_match_headers_witness :
  let decode (_ : string) :=
    Pipeline.mkFields [] [] [] [(["item"; "price"], [["tea"]; ["milk"; "2"; "extra"]])] in
  let r := fst (Pipeline.Orchestrator Some decode (fun s => s)
                  (fun _ _ => Pipeline.Reply "{}") (Pipeline.Extracted "bill") Pipeline.Online 4000) in
  Pipeline.tables r = [Pipeline.mkTable ["item"; "price"] [["tea"; ""]; ["milk"; "2"]]] /\
  forall t row, t ∈ Pipeline.tables r -> row ∈ Pipeline.rows t -> length row = 2%nat.
Proof.
  cbv zeta. split; [reflexivity|].
  intros t row Ht Hrow.
  destruct (table_rows_match_headers Some
              (fun _ : string =>
                 Pipeline.mkFields [] [] []
                   [(["item"; "price"], [["tea"]; ["milk"; "2"; "extra"]])])
              (fun s => s) (fun _ _ => Pipeline.Reply "{}")
              (Pipeline.Extracted "bill") Pipeline.Online 4000) as (Hrows & _).
  rewrite (Hrows t row Ht Hrow).
  apply list_elem_of_singleton in Ht. by subst t.
Defined.

(** C1.  A reply in which no structured block is found makes ResponseParser
    return the raw reply with an empty EntitySet and no table, whatever the
    reply is; it raises nothing.  A request whose text was extracted, whose
    service is not known to be offline and whose chunks all got a reply
    succeeds without an error message, parsed or not, and if no reply holds
    a block its entities and tables are empty.  With any other way of
    locating and decoding blocks the success flag and the error are the
    same: unparseable output alone never fails a request. *)
Theorem unparseable_reply_degrades_to_empty {Block : Type}
    (locateBlock : string -> option Block)
    (decodeBlock : Block -> Pipeline.BlockFields)
    (PromptBuilder : string -> string)
    (service : nat -> nat -> Pipeline.SubmitOutcome) :
  (forall reply, locateBlock reply = None ->
     let p := Pipeline.ResponseParser locateBlock decodeBlock reply in
     p = Pipeline.Unparsed reply /\
     Pipeline.partialEntities p = Pipeline.emptyEntitySet /\
     Pipeline.partialTables p = []) /\
  (forall text health L,
     health <> Pipeline.Offline ->
     (forall c, c ∈ Pipeline.ChunkPlanner text L ->
        exists raw, fst (Pipeline.submit PromptBuilder service c) = Pipeline.Reply raw) ->
     let r := fst (Pipeline.Orchestrator locateBlock decodeBlock PromptBuilder service
                                         (Pipeline.Extracted text) health L) in
     (Pipeline.success r = true /\ Pipeline.errorMessage r = None /\
      Pipeline.extractedText r = text) /\
     ((forall c raw, c ∈ Pipeline.ChunkPlanner text L ->
         fst (Pipeline.submit PromptBuilder service c) = Pipeline.Reply raw ->
         locateBlock raw = None) ->
      Pipeline.entities r = Pipeline.emptyEntitySet /\ Pipeline.tables r = [])) /\
  (forall (Block' : Type) (locateBlock' : string -> option Block')
          (decodeBlock' : Block' -> Pipeline.BlockFields) extraction health L,
     let r := fst (Pipeline.Orchestrator locateBlock decodeBlock PromptBuilder service
                                         extraction health L) in
     let r' := fst (Pipeline.Orchestrator locateBlock' decodeBlock' PromptBuilder service
                                          extraction health L) in
     Pipeline.success r' = Pipeline.success r /\
     Pipeline.errorMessage r' = Pipeline.errorMessage r).
Proof.
  split; [|split].
  - intros reply Hnone. cbv zeta.
    by rewrite (ResponseParser_unparsed _ _ _ Hnone).
  - intros text health L Hon Hall. cbv zeta.
    destruct (awaitOCR_replies PromptBuilder service _ Hall)
      as (raws & log & Hawait & Hfor).
    assert (Hrun : Pipeline.Orchestrator locateBlock decodeBlock PromptBuilder service
                     (Pipeline.Extracted text) health L =
                   (Pipeline.mkResult
                      (Pipeline.rejoin (Pipeline.ChunkPlanner text L))
                      (Pipeline.mergeEntities
                         (map (Pipeline.ResponseParser locateBlock decodeBlock) raws))
                      (Pipeline.mergeTables
                         (map (Pipeline.ResponseParser locateBlock decodeBlock) raws))
                      true None, log)).
    { unfold Pipeline.Orchestrator. rewrite Hawait. by destruct health. }
    rewrite Hrun; simpl. split.
    + split; [done|]. split; [done|]. apply ChunkPlanner_rejoin.
    + intros Hnone.
      assert (Hparts : Forall (fun raw => locateBlock raw = None) raws).
      { clear Hrun Hawait. induction Hfor as [|c raw chunks raws Hc Hfor IH];
          constructor.
        - apply (Hnone c raw); [by left | done].
        - apply IH.
          + intros c' Hc'. apply Hall. by right.
          + intros c' raw' Hc'. apply Hnone. by right. }
      clear Hrun Hawait Hfor. unfold Pipeline.mergeEntities, Pipeline.mergeTables.
      induction Hparts as [|raw raws Hraw Hparts IH]; [done|]. simpl.
      rewrite (ResponseParser_unparsed _ decodeBlock _ Hraw); simpl.
      destruct IH as [IHe IHt]. by rewrite IHt.
  - intros Block' locateBlock' decodeBlock' extraction health L. cbv zeta.
    destruct (success_settled_before_parsing locateBlock decodeBlock PromptBuilder
                service locateBlock' decodeBlock' extraction health L) as (? & ? & _).
    done.
Qed.

(** A service that answers every chunk in prose, and a parser that finds no
    block in prose. *)
Lemma unparseable_reply_degrades_to_empty_witness :
  let locate (_ : string) : option unit := None in
  let decode (_ : unit) := Pipeline.mkFields [] [] [] [] in
  let service (_ _ : nat) := Pipeline.Reply "Sorry, I cannot read this page." in
  let r := fst (Pipeline.Orchestrator locate decode (fun s => s) service
                  (Pipeline.Extracted "John Smith was born 01/02/1990 at 123 Main St.")
                  Pipeline.Online 10) in
  Pipeline.success r = true /\
  Pipeline.entities r = Pipeline.emptyEntitySet /\
  Pipeline.tables r = [].
Proof.
  cbv zeta.
  destruct (unparseable_reply_degrades_to_empty
              (fun _ : string => @None unit)
              (fun _ : unit => Pipeline.mkFields [] [] [] [])
              (fun s => s)
              (fun _ _ : nat => Pipeline.Reply "Sorry, I cannot read this page."))
    as (_ & Hrequest & _).
  destruct (Hrequest "John Smith was born 01/02/1990 at 123 Main St."
              Pipeline.Online 10%positive) as ((Hsuccess & _) & Hempty).
  - discriminate.
  - intros c _. by exists "Sorry, I cannot read this page.".
  - split; [exact Hsuccess|]. apply Hempty. by intros c raw _ _.
Defined.

(** * Further properties of the client *)

(** ** Health checks *)

(** [checkApiHealth] in closed form. *)
Lemma checkApiHealth_world (net : FetchOutcome) (w : World) :
  checkApiHealth net w =
  (Returned tt,
   mkWorld (mkApp (nodes (app w)) (edges (app w)) (selectedFile (app w))
                  (results (app w)) (isProcessing (app w)) (error (app w))
                  (if healthy net then "online" else "offline")
                  (reportedOcrStatus net))
           (calls w ++ [mkCall (API_BASE_URL +:+ "/health") "GET" None])
           (console w)).
Proof.
  unfold_handlers.
  destruct net as [[[] code [data|e]]|e]; simpl; try reflexivity.
  destruct (Js.get data "ocr_api_status"); reflexivity.
Qed.

(** X1.  A health check never throws, sends exactly one GET to /health and
    nothing else, logs nothing, and changes the two status cells only.
    The backend status becomes 'online' when the response is ok and its body
    is JSON other than [null], and 'offline' in every other case: after a
    check it is never 'unknown'. *)
Theorem health_check_sets_only_the_statuses (net : FetchOutcome) (w : World) :
  let out := checkApiHealth net w in
  fst out = Returned tt /\
  calls (snd out) = (calls w ++ [mkCall "http://localhost:8000/health" "GET" None])%list /\
  console (snd out) = console w /\
  nodes (app (snd out)) = nodes (app w) /\
  edges (app (snd out)) = edges (app w) /\
  selectedFile (app (snd out)) = selectedFile (app w) /\
  results (app (snd out)) = results (app w) /\
  isProcessing (app (snd out)) = isProcessing (app w) /\
  error (app (snd out)) = error (app w) /\
  apiStatus (app (snd out)) = (if healthy net then "online" else "offline") /\
  apiStatus (app (snd out)) <> "unknown" /\
  (apiStatus (app (snd out)) = "online" <->
   exists code data,
     net = FetchResolves (mkResponse true code (JsonResolves data)) /\
     data <> Js.Null /\ data <> Js.Undefined).
Proof.
  cbv zeta. rewrite checkApiHealth_world; simpl.
  repeat (split; [reflexivity|]). split.
  - destruct (healthy net); discriminate.
  - split.
    + destruct net as [[[] code [data|e]]|e]; simpl; try discriminate.
      destruct data; simpl; try discriminate; intros _; eauto 6.
    + intros (code & data & -> & Hnull & Hundef); simpl.
      by destruct data.
Qed.

(** Every handler but the health check leaves the two status cells alone. *)
Lemma other_handlers_keep_statuses (e : Event) (a : string) (o : Js.value) :
  (forall net, e <> HealthChecked net) ->
  preserves (fun w => apiStatus (app w) = a /\ ocrApiStatus (app w) = o) (handler e).
Proof.
  intros Hother.
  assert (Hfetch : forall c net,
             preserves (fun w => apiStatus (app w) = a /\ ocrApiStatus (app w) = o)
                       (fetch c net))
    by (intros c [r|x] w Hw; exact Hw).
  assert (Hlog : forall line,
             preserves (fun w => apiStatus (app w) = a /\ ocrApiStatus (app w) = o)
                       (consoleError line))
    by (intros line w Hw; exact Hw).
  destruct e as [net|files|files|net]; simpl.
  - by destruct (Hother net).
  - unfold handleFileUpload; unfold_setters.
    preserve_steps; by apply preserves_modify.
  - unfold handleDrop; unfold_setters.
    preserve_steps; by apply preserves_modify.
  - unfold processPDF, submitPDF, reportFailure, windDown; unfold_setters.
    preserve_steps; by apply preserves_modify.
Qed.

Lemma stateAfter_snoc (events : list Event) (e : Event) :
  stateAfter (events ++ [e]) = step (stateAfter events) e.
Proof. unfold stateAfter. by rewrite foldl_app. Qed.

Lemma lastHealthCheck_snoc (events : list Event) (e : Event) :
  lastHealthCheck (events ++ [e]) =
  match e with
  | HealthChecked net => Some net
  | _ => lastHealthCheck events
  end.
Proof. unfold lastHealthCheck. by rewrite foldl_app. Qed.

(** X2.  Through a whole session the two status indicators show the outcome of
    the last health check that was made, and 'unknown' before the first:
    choosing files, drops and processing never change them. *)
Theorem statuses_reflect_last_health_check (events : list Event) :
  apiStatus (stateAfter events) =
    match lastHealthCheck events with
    | None => "unknown"
    | Some net => if healthy net then "online" else "offline"
    end /\
  ocrApiStatus (stateAfter events) =
    match lastHealthCheck events with
    | None => Js.Str "unknown"
    | Some net => reportedOcrStatus net
    end.
Proof.
  induction events as [|e events IH] using rev_ind; [done|].
  rewrite stateAfter_snoc, lastHealthCheck_snoc.
  assert (Hframe : (forall net, e <> HealthChecked net) ->
            apiStatus (step (stateAfter events) e) = apiStatus (stateAfter events) /\
            ocrApiStatus (step (stateAfter events) e) = ocrApiStatus (stateAfter events)).
  { intros Hne.
    exact (other_handlers_keep_statuses e _ _ Hne
             (mkWorld (stateAfter events) [] []) (conj eq_refl eq_refl)). }
  destruct e as [net|files|files|net];
    try (destruct Hframe as [-> ->]; [discriminate | exact IH]).
  unfold step, run; simpl. by rewrite checkApiHealth_world.
Qed.

(** ** Processing *)

Ltac no_results :=
  let res := fresh "res" in
  intros res (? & ? & ? & ? & ? & ? & ? & ? & ? & ? & ?); simplify_eq; congruence.

(** The run failed: the exception logged is the one whose message is shown. *)
Ltac failed_run :=
  split; [done|]; split; [done|]; right; eexists;
  split; [no_results|]; (split; [|reflexivity]); reflexivity.

(** [processPDF] past its guards, in closed form: one request, and then
    either the results of the response, or an error shown and one call of
    [console.error], both for the exception that was caught. *)
Lemma processPDF_end (s : AppState) (file : File.t) (net : FetchOutcome)
    (cs : list Call) (con : list (list Logged)) :
  selectedFile s = Some file ->
  apiStatus s <> "offline" ->
  let out := processPDF net (mkWorld s cs con) in
  fst out = Returned tt /\
  calls (snd out) = (cs ++ [processRequest file])%list /\
  ((exists res, resultsOf net res /\
                app (snd out) = succeeded s res /\ console (snd out) = con) \/
   (exists err, (forall res, ~ resultsOf net res) /\
                app (snd out) = failedWith s (message err) /\
                console (snd out) =
                  (con ++ [[LoggedText "Processing error:"; LoggedError err]])%list)).
Proof.
  intros Hsel Hon. cbv zeta.
  rewrite (processPDF_past_guards net (mkWorld s cs con) file Hsel Hon).
  unfold resultsOf.
  destruct net as [[okay code body]|e].
  - destruct okay.
    + unfold_handlers; simpl.
      destruct body as [data|e]; simpl; [|failed_run].
      destruct (Js.get data "success") as [success|] eqn:Hs; simpl; [|failed_run].
      destruct (Js.truthy success) eqn:Ht; simpl.
      * destruct (Js.get data "extracted_text") as [txt|] eqn:Hx; simpl; [|failed_run].
        destruct (Js.get data "ocr_result") as [ocr|] eqn:Ho; simpl; [|failed_run].
        destruct (Js.get ocr "entities") as [ents|] eqn:He; simpl; [|failed_run].
        destruct (Js.get ocr "tables") as [tbls|] eqn:Hb; simpl; [|failed_run].
        split; [done|]. split; [done|]. left.
        exists (mkResults txt ents tbls). split; [|done].
        exists code, data, success, ocr. done.
      * destruct (Js.get data "error") as [err|] eqn:He; simpl; failed_run.
    + unfold_handlers; simpl.
      destruct body as [data|e]; simpl; [|failed_run].
      destruct (Js.get data "detail"); simpl; failed_run.
  - unfold_handlers; simpl. failed_run.
Qed.

(** Through the updates of a run an edge stays where it is and keeps its
    id, source, target and style; the animation of an edge called [edgeId]
    is what the last update of that id said. *)
Lemma updateEdges_at (edgeId : string) (animated : bool) (eds : list Edge.t)
    (i : nat) (edge : Edge.t) :
  eds !! i = Some edge ->
  exists edge', updateEdges edgeId animated eds !! i = Some edge' /\
    Edge.id edge' = Edge.id edge /\ Edge.source edge' = Edge.source edge /\
    Edge.target edge' = Edge.target edge /\ Edge.style edge' = Edge.style edge /\
    (Edge.id edge = edgeId -> Edge.animated edge' = animated) /\
    (Edge.id edge <> edgeId -> Edge.animated edge' = Edge.animated edge).
Proof.
  intros Hi. rewrite updateEdges_lookup, Hi; simpl.
  eexists; split; [reflexivity|].
  destruct (String.eqb (Edge.id edge) edgeId) eqn:E.
  - apply String.eqb_eq in E. by repeat split.
  - apply String.eqb_neq in E. by repeat split.
Qed.

(** C10.  Once [processPDF] is past its guards (a file is selected, the
    backend status is not 'offline') it runs to its end, however the
    request settles and whatever the state was: it returns, exactly one
    request went out (the POST of the selected file to /process-pdf), and
    [isProcessing] is false.  The edges are all still there, each in its
    place with its id, source, target and style, and every edge called
    'pdf-processing' has its animation off; of the other edges only those
    called 'processing-output' can have changed.  This holds on the two
    paths alike: the one that stores the results of the response and sets no
    error, and the one that catches an exception and sets the error. *)
Theorem processing_always_winds_down
    (s : AppState) (net : FetchOutcome) (file : File.t) :
  selectedFile s = Some file ->
  apiStatus s <> "offline" ->
  let out := processPDF net (mkWorld s [] []) in
  let s' := app (snd out) in
  fst out = Returned tt /\
  isProcessing s' = false /\
  calls (snd out) = [mkCall "http://localhost:8000/process-pdf" "POST" (Some file)] /\
  length (edges s') = length (edges s) /\
  (forall i edge, edges s !! i = Some edge ->
     exists edge', edges s' !! i = Some edge' /\
       Edge.id edge' = Edge.id edge /\ Edge.source edge' = Edge.source edge /\
       Edge.target edge' = Edge.target edge /\ Edge.style edge' = Edge.style edge /\
       (Edge.id edge = "pdf-processing" -> Edge.animated edge' = false) /\
       (Edge.id edge <> "pdf-processing" -> Edge.id edge <> "processing-output" ->
        edge' = edge)) /\
  (forall edge', edge' ∈ edges s' -> Edge.id edge' = "pdf-processing" ->
     Edge.animated edge' = false) /\
  ((exists res, resultsOf net res /\ results s' = Some res /\ error s' = None) \/
   ((forall res, ~ resultsOf net res) /\ results s' = results s /\
    exists err, error s' = Some ("Failed to process PDF: " +:+ message err))).
Proof.
  intros Hsel Hon. cbv zeta.
  destruct (processPDF_end s file net [] [] Hsel Hon) as (Hret & Hcalls & Hend).
  split; [exact Hret|].
  assert (Hedges : exists mid,
            edges (app (snd (processPDF net (mkWorld s [] [])))) =
              updateEdges "pdf-processing" false mid /\
            length mid = length (edges s) /\
            forall i edge, edges s !! i = Some edge ->
              exists edge1, mid !! i = Some edge1 /\
                Edge.id edge1 = Edge.id edge /\ Edge.source edge1 = Edge.source edge /\
                Edge.target edge1 = Edge.target edge /\ Edge.style edge1 = Edge.style edge /\
                (Edge.id edge <> "pdf-processing" -> Edge.id edge <> "processing-output" ->
                 edge1 = edge)).
  { destruct Hend as [(res & _ & -> & _)|(err & _ & -> & _)]; simpl.
    - eexists; split; [reflexivity|]. split; [by rewrite !updateEdges_length|].
      intros i edge Hi.
      destruct (updateEdges_at "pdf-processing" true _ i edge Hi)
        as (e1 & Hi1 & Hid1 & Hsrc1 & Htgt1 & Hsty1 & _ & Hkeep1).
      destruct (updateEdges_at "processing-output" true _ i e1 Hi1)
        as (e2 & Hi2 & Hid2 & Hsrc2 & Htgt2 & Hsty2 & _ & Hkeep2).
      exists e2. split; [exact Hi2|]. repeat split; try congruence.
      intros Hne1 Hne2.
      rewrite updateEdges_lookup, updateEdges_lookup, Hi in Hi2; simpl in Hi2.
      apply String.eqb_neq in Hne1, Hne2. rewrite Hne1, Hne2 in Hi2. congruence.
    - eexists; split; [reflexivity|]. split; [by rewrite updateEdges_length|].
      intros i edge Hi.
      destruct (updateEdges_at "pdf-processing" true _ i edge Hi)
        as (e1 & Hi1 & Hid1 & Hsrc1 & Htgt1 & Hsty1 & _ & _).
      exists e1. split; [exact Hi1|]. repeat split; try congruence.
      intros Hne1 _.
      rewrite updateEdges_lookup, Hi in Hi1; simpl in Hi1.
      apply String.eqb_neq in Hne1. rewrite Hne1 in Hi1. congruence. }
  destruct Hedges as (mid & Hmid & Hlen & Hat).
  split; [by destruct Hend as [(res & _ & -> & _)|(err & _ & -> & _)]|].
  split; [exact Hcalls|].
  split; [by rewrite Hmid, updateEdges_length|].
  split; [|split].
  - intros i edge Hi.
    destruct (Hat i edge Hi) as (e1 & Hi1 & Hid1 & Hsrc1 & Htgt1 & Hsty1 & Hkeep1).
    destruct (updateEdges_at "pdf-processing" false mid i e1 Hi1)
      as (e2 & Hi2 & Hid2 & Hsrc2 & Htgt2 & Hsty2 & Hoff & _).
    exists e2. rewrite Hmid. split; [exact Hi2|].
    repeat split; try congruence.
    + intros Hid. apply Hoff. congruence.
    + intros Hne1 Hne2. rewrite <- (Hkeep1 Hne1 Hne2).
      rewrite updateEdges_lookup, Hi1 in Hi2; simpl in Hi2.
      assert (Hne : Edge.id e1 <> "pdf-processing") by congruence.
      apply String.eqb_neq in Hne. rewrite Hne in Hi2. congruence.
  - intros edge' Hin Hid. rewrite Hmid in Hin.
    by apply (updateEdges_sets _ _ _ _ Hin).
  - destruct Hend as [(res & Hres & -> & _)|(err & Hno & -> & _)].
    + left. by exists res.
    + right. split; [exact Hno|]. split; [done | by exists err].
Qed.

(** A click while the edge out of the pdf node is animated and
    [isProcessing] is set, the server answering 500 with a body that is no
    JSON: the handler returns, [isProcessing] is false, and the first edge
    is the 'pdf-processing' edge with its animation off. *)
Lemma processing_always_winds_down_witness :
  let report := File.mk "report.pdf" "application/pdf" in
  let s := mkApp initialNodes
                 [ Edge.mk "pdf-processing" "pdf" "processing" true edgeStyle;
                   Edge.mk "processing-output" "processing" "output" false edgeStyle ]
                 (Some report) None true None "online" (Js.Str "online") in
  let net := FetchResolves
               (mkResponse false 500 (JsonRejects (mkExn "SyntaxError" "Unexpected token"))) in
  let out := processPDF net (mkWorld s [] []) in
  fst out = Returned tt /\
  isProcessing (app (snd out)) = false /\
  length (edges (app (snd out))) = 2%nat /\
  exists edge', edges (app (snd out)) !! 0%nat = Some edge' /\
                Edge.id edge' = "pdf-processing" /\ Edge.animated edge' = false.
Proof.
  cbv zeta.
  assert (Hon : "online" <> "offline") by discriminate.
  destruct (processing_always_winds_down
              (mkApp initialNodes
                 [ Edge.mk "pdf-processing" "pdf" "processing" true edgeStyle;
                   Edge.mk "processing-output" "processing" "output" false edgeStyle ]
                 (Some (File.mk "report.pdf" "application/pdf")) None true None
                 "online" (Js.Str "online"))
              (FetchResolves
                 (mkResponse false 500 (JsonRejects (mkExn "SyntaxError" "Unexpected token"))))
              (File.mk "report.pdf" "application/pdf") eq_refl Hon)
    as (Hret & Hproc & _ & Hlen & Hat & _).
  split; [exact Hret|]. split; [exact Hproc|]. split; [exact Hlen|].
  destruct (Hat 0%nat (Edge.mk "pdf-processing" "pdf" "processing" true edgeStyle) eq_refl)
    as (edge' & Hi & Hid & _ & _ & _ & Hoff & _).
  exists edge'. split; [exact Hi|]. split; [exact Hid | exact (Hoff eq_refl)].
Defined.

(** ** One step of a session, by cases *)

Lemma step_cases (s : AppState) (e : Event) :
  (exists net, e = HealthChecked net /\
     step s e = mkApp (nodes s) (edges s) (selectedFile s) (results s)
                      (isProcessing s) (error s)
                      (if healthy net then "online" else "offline")
                      (reportedOcrStatus net)) \/
  (exists msg, msg <> "" /\ step s e = reported s msg) \/
  (exists file, File.type file = "application/pdf" /\
     (exists others, e = FileChosen (file :: others) \/ e = FilesDropped (file :: others)) /\
     step s e = accepted s file) \/
  (e = FilesDropped [] /\ step s e = s) \/
  (exists file net res, e = ProcessClicked net /\ selectedFile s = Some file /\
     apiStatus s <> "offline" /\ resultsOf net res /\ step s e = succeeded s res) \/
  (exists file net msg, e = ProcessClicked net /\ selectedFile s = Some file /\
     apiStatus s <> "offline" /\ (forall res, ~ resultsOf net res) /\
     step s e = failedWith s msg).
Proof.
  destruct e as [net|files|files|net].
  - left. exists net. split; [done|].
    unfold step, run; simpl. by rewrite checkApiHealth_world.
  - destruct files as [|file others].
    + right; left. exists "Please select a valid PDF file". split; [discriminate|].
      by destruct s.
    + unfold step, run; simpl. unfold handleFileUpload; simpl.
      destruct (String.eqb (File.type file) "application/pdf") eqn:E.
      * apply String.eqb_eq in E. do 2 right; left. exists file.
        split; [done|]. split; [eauto|]. by destruct s.
      * right; left. exists "Please select a valid PDF file".
        split; [discriminate|]. by destruct s.
  - destruct files as [|file others].
    + do 3 right; left. split; [done|]. by destruct s as [? ? ? ? ? ? ? ?].
    + unfold step, run; simpl.
      destruct (String.eqb (File.type file) "application/pdf") eqn:E.
      * apply String.eqb_eq in E. do 2 right; left. exists file.
        split; [done|]. split; [eauto|]. by destruct s.
      * right; left. exists "Please drop a valid PDF file".
        split; [discriminate|]. by destruct s.
  - destruct (selectedFile s) as [file|] eqn:Hsel.
    + destruct (String.eqb (apiStatus s) "offline") eqn:Hoff.
      * right; left. exists offlineMessage. split; [discriminate|].
        unfold reported, step, run; simpl.
        unfold processPDF, bind, readState, setError, modify; simpl.
        rewrite Hsel, Hoff. simpl. by rewrite Hsel.
      * apply String.eqb_neq in Hoff.
        destruct (processPDF_end s file net [] [] Hsel Hoff)
          as (_ & _ & [(res & Hres & Happ & _)|(err & Hno & Happ & _)]).
        -- do 4 right; left. exists file, net, res. by rewrite <- Happ.
        -- do 5 right. exists file, net, (message err). by rewrite <- Happ.
    + right; left. exists "Please select a PDF file first". split; [discriminate|].
      unfold reported, step, run; simpl.
      unfold processPDF, bind, readState, setError, modify; simpl.
      rewrite Hsel. simpl. by rewrite Hsel.
Qed.

(** ** Choosing and dropping files *)

Lemma updateNodes_elem (nodeId : string) (newData : gmap string Js.value)
    (nds : list Node.t) (node' : Node.t) :
  node' ∈ updateNodes nodeId newData nds ->
  exists node, node ∈ nds /\ Node.id node' = Node.id node /\
    ((Node.id node = nodeId /\ node' = mergeNodeData newData node) \/
     (Node.id node <> nodeId /\ node' = node)).
Proof.
  unfold updateNodes. intros Hin.
  apply list_elem_of_fmap in Hin as (node & -> & Hnode).
  exists node. split; [done|].
  destruct (String.eqb (Node.id node) nodeId) eqn:E.
  - apply String.eqb_eq in E. split; [done|]. by left.
  - apply String.eqb_neq in E. split; [done|]. by right.
Qed.

(** After [updateNodeData id newData] every node called [id] carries the
    fields of [newData]. *)
Lemma updateNodes_sets (nodeId : string) (newData : gmap string Js.value)
    (nds : list Node.t) (node' : Node.t) (k : string) (v : Js.value) :
  node' ∈ updateNodes nodeId newData nds ->
  Node.id node' = nodeId -> newData !! k = Some v ->
  dataProp (Node.data node') k = v.
Proof.
  intros Hin Hid Hk.
  apply updateNodes_elem in Hin as (node & _ & Hsame & [[_ ->]|[Hne ->]]).
  - unfold dataProp. by rewrite mergeNodeData_lookup, Hk.
  - congruence.
Qed.

Lemma updateNodes_other (nodeId : string) (newData : gmap string Js.value)
    (nds : list Node.t) (node' : Node.t) :
  node' ∈ updateNodes nodeId newData nds -> Node.id node' <> nodeId -> node' ∈ nds.
Proof.
  intros Hin Hid.
  apply updateNodes_elem in Hin as (node & Hnode & Hsame & [[Heq _]|[_ ->]]);
    [congruence | done].
Qed.

(** X3.  A first file of type 'application/pdf' is accepted by the file input
    and by a drop alike, whatever its name and whatever comes after it in
    the list: it becomes the selected file in place of any earlier one, the
    error is cleared, every node called 'pdf' gets its name as [fileName]
    and the drop area shows it.  Results of an earlier run, the processing
    flag, the statuses and the edges stay, and nothing is fetched. *)
Theorem pdf_is_accepted (s : AppState) (file : File.t) (others : list File.t) :
  File.type file = "application/pdf" ->
  let chosen := run (handleFileUpload (file :: others)) s in
  let dropped := run (handleDrop (file :: others)) s in
  (fst chosen = accepted s file /\ snd chosen = []) /\
  (fst dropped = accepted s file /\ snd dropped = []) /\
  (selectedFile (accepted s file) = Some file /\
   error (accepted s file) = None /\
   results (accepted s file) = results s /\
   edges (accepted s file) = edges s /\
   isProcessing (accepted s file) = isProcessing s /\
   dropAreaText (accepted s file) = File.name file) /\
  (length (nodes (accepted s file)) = length (nodes s) /\
   forall node, node ∈ nodes (accepted s file) ->
     (Node.id node = "pdf" ->
      dataProp (Node.data node) "fileName" = Js.Str (File.name file)) /\
     (Node.id node <> "pdf" -> node ∈ nodes s)).
Proof.
  intros Htype. apply String.eqb_eq in Htype. cbv zeta.
  unfold run, handleFileUpload, handleDrop; simpl. rewrite Htype.
  unfold_handlers; simpl.
  split; [done|]. split; [done|]. split; [done|].
  split; [apply updateNodes_length|].
  intros node Hnode. split.
  - intros Hid. by apply (updateNodes_sets _ _ _ _ _ _ Hnode Hid).
  - intros Hid. by apply (updateNodes_other _ _ _ _ Hnode Hid).
Qed.

(** A PDF whose name does not end in .pdf, dropped on the initial state. *)
Lemma pdf_is_accepted_witness :
  let scan := File.mk "scan.bin" "application/pdf" in
  selectedFile (fst (run (handleDrop [scan; File.mk "b.txt" "text/plain"]) initialState))
  = Some scan.
Proof.
  cbv zeta.
  destruct (pdf_is_accepted initialState (File.mk "scan.bin" "application/pdf")
              [File.mk "b.txt" "text/plain"] eq_refl)
    as (_ & (Hdropped & _) & (Hsel & _) & _).
  rewrite Hdropped. exact Hsel.
Defined.

(** X4.  An empty list of files.  A drop without files changes nothing at all
    and reports nothing.  A change of the file input without a file reports
    'Please select a valid PDF file' and keeps the selection, the results
    and the graph as they were.  Neither fetches. *)
Theorem empty_file_list (s : AppState) :
  run (handleDrop []) s = (s, []) /\
  run (handleFileUpload []) s = (reported s "Please select a valid PDF file", []) /\
  selectedFile (reported s "Please select a valid PDF file") = selectedFile s /\
  results (reported s "Please select a valid PDF file") = results s /\
  nodes (reported s "Please select a valid PDF file") = nodes s.
Proof. by destruct s. Qed.

Lemma lastAccepted_snoc (events : list Event) (e : Event) :
  lastAccepted (events ++ [e]) =
  match e with
  | FileChosen (file :: _) | FilesDropped (file :: _) =>
      if String.eqb (File.type file) "application/pdf" then Some file
      else lastAccepted events
  | _ => lastAccepted events
  end.
Proof. unfold lastAccepted. by rewrite foldl_app. Qed.

(** X5.  Through a whole session the selected file is the file that led the
    last choice or drop that was led by a PDF, and there is none before the
    first: a refused file, an empty list, a health check and processing,
    failed or not, never change or clear the selection. *)
Theorem selected_file_is_last_accepted (events : list Event) :
  selectedFile (stateAfter events) = lastAccepted events /\
  dropAreaText (stateAfter events) =
    match lastAccepted events with
    | Some file => File.name file
    | None => "Drop your PDF here"
    end.
Proof.
  assert (Hsel : selectedFile (stateAfter events) = lastAccepted events).
  { induction events as [|e events IH] using rev_ind; [done|].
    rewrite stateAfter_snoc, lastAccepted_snoc.
    destruct (step_cases (stateAfter events) e)
      as [(net & -> & ->)|[(msg & _ & Hstep)|[(file & Htype & (others & He) & ->)|
          [(-> & ->)|[(file & net & res & -> & _ & _ & _ & ->)|
                      (file & net & msg & -> & _ & _ & _ & ->)]]]]]; simpl; try done.
    - rewrite Hstep; simpl.
      destruct e as [net|[|file others]|[|file others]|net]; try done.
      + unfold step, run in Hstep; simpl in Hstep.
        unfold handleFileUpload in Hstep; simpl in Hstep.
        destruct (String.eqb (File.type file) "application/pdf"); [|done].
        apply (f_equal error) in Hstep. discriminate.
      + unfold step, run in Hstep; simpl in Hstep.
        destruct (String.eqb (File.type file) "application/pdf"); [|done].
        apply (f_equal error) in Hstep. discriminate.
    - apply String.eqb_eq in Htype. by destruct He as [-> | ->]; rewrite Htype. }
  split; [exact Hsel|]. unfold dropAreaText. by rewrite Hsel.
Qed.

(** ** The graph along a session *)

Lemma updateNodes_shape (nodeId : string) (newData : gmap string Js.value)
    (nds : list Node.t) :
  map Node.id (updateNodes nodeId newData nds) = map Node.id nds /\
  map Node.type (updateNodes nodeId newData nds) = map Node.type nds /\
  map Node.position (updateNodes nodeId newData nds) = map Node.position nds.
Proof.
  unfold updateNodes. rewrite !map_map.
  repeat split; apply map_ext; intros node;
    by destruct (String.eqb (Node.id node) nodeId).
Qed.

Lemma updateEdges_shape (edgeId : string) (animated : bool) (eds : list Edge.t) :
  map Edge.id (updateEdges edgeId animated eds) = map Edge.id eds /\
  map Edge.source (updateEdges edgeId animated eds) = map Edge.source eds /\
  map Edge.target (updateEdges edgeId animated eds) = map Edge.target eds /\
  map Edge.style (updateEdges edgeId animated eds) = map Edge.style eds.
Proof.
  unfold updateEdges. rewrite !map_map.
  repeat split; apply map_ext; intros edge;
    by destruct (String.eqb (Edge.id edge) edgeId).
Qed.

(** X6.  No handler adds, removes or reorders a node or an edge, and none
    changes the id, type or position of a node or the id, source, target or
    style of an edge: from any state, after any event, these are as before.
    All a handler ever changes in the graph is the data of nodes and the
    [animated] flag of edges. *)
Theorem handlers_keep_graph_shape (s : AppState) (e : Event) :
  (map Node.id (nodes (step s e)) = map Node.id (nodes s) /\
   map Node.type (nodes (step s e)) = map Node.type (nodes s) /\
   map Node.position (nodes (step s e)) = map Node.position (nodes s)) /\
  (map Edge.id (edges (step s e)) = map Edge.id (edges s) /\
   map Edge.source (edges (step s e)) = map Edge.source (edges s) /\
   map Edge.target (edges (step s e)) = map Edge.target (edges s) /\
   map Edge.style (edges (step s e)) = map Edge.style (edges s)).
Proof.
  destruct (step_cases s e)
    as [(net & _ & ->)|[(msg & _ & ->)|[(file & _ & _ & ->)|
        [(_ & ->)|[(file & net & res & _ & _ & _ & _ & ->)|
                   (file & net & msg & _ & _ & _ & _ & ->)]]]]]; simpl; try done.
  - split; [apply updateNodes_shape | done].
  - split.
    + destruct (updateNodes_shape "output" {[ "hasResults" := Js.Bool true ]}
                  (updateNodes "processing" {[ "status" := Js.Str "completed" ]}
                     (updateNodes "processing" {[ "status" := Js.Str "processing" ]}
                        (nodes s)))) as (-> & -> & ->).
      destruct (updateNodes_shape "processing" {[ "status" := Js.Str "completed" ]}
                  (updateNodes "processing" {[ "status" := Js.Str "processing" ]}
                     (nodes s))) as (-> & -> & ->).
      apply updateNodes_shape.
    + destruct (updateEdges_shape "pdf-processing" false
                  (updateEdges "processing-output" true
                     (updateEdges "pdf-processing" true (edges s))))
        as (-> & -> & -> & ->).
      destruct (updateEdges_shape "processing-output" true
                  (updateEdges "pdf-processing" true (edges s)))
        as (-> & -> & -> & ->).
      apply updateEdges_shape.
  - split; [apply updateNodes_shape|].
    destruct (updateEdges_shape "pdf-processing" false
                (updateEdges "pdf-processing" true (edges s)))
      as (-> & -> & -> & ->).
    apply updateEdges_shape.
Qed.

Lemma step_keeps_graphMirrorsState (s : AppState) (e : Event) :
  graphMirrorsState s -> graphMirrorsState (step s e).
Proof.
  intros (status & Hnodes & Hedges & Hidle & Hstatus).
  destruct s as [nds eds sel res isp err api ocr]; simpl in *; subst nds eds isp.
  destruct (step_cases (mkApp (graphFor sel status res) (edgesFor res) sel res
                               false err api ocr) e)
    as [(net & _ & ->)|[(msg & _ & ->)|[(file & _ & _ & ->)|
        [(_ & ->)|[(file & net & res' & _ & Hsel & _ & _ & ->)|
                   (file & net & msg & _ & Hsel & _ & _ & ->)]]]]];
    unfold graphMirrorsState; simpl in *.
  - exists status. repeat split; first [assumption | reflexivity].
  - exists status. repeat split; first [assumption | reflexivity].
  - exists status. repeat split; first [assumption | reflexivity].
  - exists status. repeat split; first [assumption | reflexivity].
  - exists "completed". subst sel. repeat split; try reflexivity.
    right; right. split; [done | by eexists].
  - exists "processing". subst sel. repeat split; try reflexivity.
    by right; left.
Qed.

Lemma reachable_graphMirrorsState (events : list Event) :
  graphMirrorsState (stateAfter events).
Proof.
  induction events as [|e events IH] using rev_ind.
  - unfold graphMirrorsState. exists "idle". repeat split; try reflexivity. by left.
  - rewrite stateAfter_snoc. by apply step_keeps_graphMirrorsState.
Qed.

(** X7.  Along a session the graph mirrors the state exactly.  There are the
    three nodes and the two edges of the start, in order; the pdf node
    carries the name of the selected file, or [null]; the output node says
    [hasResults] and the edge into it is animated exactly when there are
    results; the edge out of the pdf node is never left animated and
    [isProcessing] is never left set; the processing node is 'idle' until a
    request went out, 'completed' only with results, and 'processing' after
    a request that failed. *)
Theorem graph_mirrors_state (events : list Event) :
  graphMirrorsState (stateAfter events).
Proof. apply reachable_graphMirrorsState. Qed.

(** X8.  The node components on the data a session leaves.  [nodeTypes]
    has a component for the type of each of the three nodes, and applied to
    the data of its node each returns one text.  [PDFNode] returns the name
    of the selected file, and 'No file selected' when there is none or its
    name is empty; [ProcessingNode] returns exactly one of its three texts,
    'Completed' only when there are results and the idle text only when
    there are none; [OutputNode] returns 'Entities & Tables' exactly when
    there are results.  This is said of what the three functions return,
    not of the page: React calls them only when the render of
    [PDFProcessorApp] itself ran to its end. *)
Theorem node_components_on_session_data (events : list Event) :
  let s := stateAfter events in
  exists processing,
    componentOutputs s =
      [ Some [Js.Str (match selectedFile s with
                      | Some file =>
                          if String.eqb (File.name file) "" then "No file selected"
                          else File.name file
                      | None => "No file selected"
                      end)];
        Some [Js.Str processing];
        Some [Js.Str (if bool_decide (is_Some (results s)) then "Entities & Tables"
                      else "No results yet")] ] /\
    ((processing = "FastAPI + olmocr-7b" /\ results s = None) \/
     processing = "Processing..." \/
     (processing = "Completed" /\ is_Some (results s))).
Proof.
  cbv zeta.
  destruct (reachable_graphMirrorsState events)
    as (status & Hnodes & _ & _ & Hstatus).
  unfold componentOutputs. rewrite Hnodes.
  assert (Hpdf : forall v : Js.value,
             PDFNode {[ "fileName" := v ]} = Js.or v (Js.Str "No file selected"))
    by done.
  assert (Hout : forall b : bool,
             OutputNode {[ "hasResults" := Js.Bool b ]} =
             if b then "Entities & Tables" else "No results yet") by done.
  assert (Hfirst :
    PDFNode {[ "fileName" := match selectedFile (stateAfter events) with
                             | Some file => Js.Str (File.name file)
                             | None => Js.Null
                             end ]} =
    Js.Str (match selectedFile (stateAfter events) with
            | Some file =>
                if String.eqb (File.name file) "" then "No file selected"
                else File.name file
            | None => "No file selected"
            end)).
  { rewrite Hpdf. destruct (selectedFile (stateAfter events)) as [file|]; [|done].
    unfold Js.or; simpl. by destruct (String.eqb (File.name file) ""). }
  destruct Hstatus as [[-> Hnone]|[-> |[-> Hsome]]].
  - exists "FastAPI + olmocr-7b". simpl. rewrite Hfirst, Hout. split; [done | by left].
  - exists "Processing...". simpl. rewrite Hfirst, Hout. split; [done | by right; left].
  - exists "Completed". simpl. rewrite Hfirst, Hout. split; [done | by right; right].
Qed.

(** ** Results, errors and requests along a session *)

Lemma step_results (s : AppState) (e : Event) :
  results (step s e) = results s \/
  exists net res, e = ProcessClicked net /\ resultsOf net res /\
                  results (step s e) = Some res.
Proof.
  destruct (step_cases s e)
    as [(net & _ & ->)|[(msg & _ & ->)|[(file & _ & _ & ->)|
        [(_ & ->)|[(file & net & res & -> & _ & _ & Hres & ->)|
                   (file & net & msg & _ & _ & _ & _ & ->)]]]]]; simpl;
    try (by left).
  right. by exists net, res.
Qed.

Lemma reachable_results (events : list Event) (res : Results) :
  results (stateAfter events) = Some res ->
  exists before net after,
    events = (before ++ ProcessClicked net :: after)%list /\ resultsOf net res.
Proof.
  induction events as [|e events IH] using rev_ind; [done|].
  rewrite stateAfter_snoc.
  destruct (step_results (stateAfter events) e) as [-> |(net & res' & -> & Hof & ->)].
  - intros (before & net & after & -> & Hof)%IH.
    exists before, net, (after ++ [e])%list. by rewrite <- app_assoc.
  - intros [= ->]. exists events, net, []. done.
Qed.

(** X9.  Results are only ever what a response of the session said.  When a
    session has results, one of its clicks got an ok response whose body
    said [success] and carried the [extracted_text] and, in its
    [ocr_result], the [entities] and [tables] that the results hold; no
    other event and no other response creates results.  So the one link
    that [downloadResults] then clicks, named
    'pdf-extraction-results.json', carries exactly such data. *)
Theorem results_come_from_a_response
    (stringify : Results -> string) (encodeURIComponent : string -> string)
    (events : list Event) (res : Results) :
  results (stateAfter events) = Some res ->
  (exists before net after,
     events = (before ++ ProcessClicked net :: after)%list /\ resultsOf net res) /\
  downloadResults stringify encodeURIComponent (stateAfter events) =
    [mkLink ("data:application/json;charset=utf-8," +:+ encodeURIComponent (stringify res))
            "pdf-extraction-results.json"].
Proof.
  intros Hres. split; [by apply reachable_results|].
  unfold downloadResults. by rewrite Hres.
Qed.

(** One successful run after a file was chosen. *)
Lemma results_come_from_a_response_witness :
  let body := Js.Obj [("success", Js.Bool true); ("extracted_text", Js.Str "hi");
                      ("ocr_result", Js.Obj [("entities", Js.Obj []); ("tables", Js.Arr [])])] in
  let net := FetchResolves (mkResponse true 200 (JsonResolves body)) in
  let events := [FileChosen [File.mk "a.pdf" "application/pdf"]; ProcessClicked net] in
  downloadResults (fun _ => "{}") (fun x => x) (stateAfter events) =
    [mkLink "data:application/json;charset=utf-8,{}" "pdf-extraction-results.json"].
Proof.
  cbv zeta.
  exact (proj2 (results_come_from_a_response (fun _ => "{}") (fun x => x)
                  [FileChosen [File.mk "a.pdf" "application/pdf"];
                   ProcessClicked
                     (FetchResolves
                        (mkResponse true 200
                           (JsonResolves
                              (Js.Obj [("success", Js.Bool true);
                                       ("extracted_text", Js.Str "hi");
                                       ("ocr_result",
                                        Js.Obj [("entities", Js.Obj []);
                                                ("tables", Js.Arr [])])]))))]
                  (mkResults (Js.Str "hi") (Js.Obj []) (Js.Arr [])) eq_refl)).
Defined.

(** X10.  Results are never cleared.  Once a state has results, every later
    state of the session has results, whatever happens: another file is
    chosen, a run fails, the backend goes offline.  Without results
    [downloadResults] clicks nothing. *)
Theorem results_are_never_cleared
    (stringify : Results -> string) (encodeURIComponent : string -> string)
    (s : AppState) (events : list Event) :
  is_Some (results s) ->
  is_Some (results (foldl step s events)) /\
  downloadResults stringify encodeURIComponent (foldl step s events) <> [] /\
  downloadResults stringify encodeURIComponent initialState = [].
Proof.
  intros Hsome.
  assert (Hlater : is_Some (results (foldl step s events))).
  { revert s Hsome. induction events as [|e events IH]; intros s Hsome; [done|].
    simpl. apply IH.
    destruct (step_results s e) as [-> |(net & res & _ & _ & ->)]; [done | by eexists]. }
  split; [done|]. split; [|done].
  unfold downloadResults. by destruct Hlater as [res ->].
Qed.

(** Results survive the choice of another file and a failed run. *)
Lemma results_are_never_cleared_witness :
  let s := mkApp initialNodes initialEdges None
                 (Some (mkResults (Js.Str "old") Js.Null Js.Null))
                 false None "online" (Js.Str "online") in
  is_Some (results (foldl step s
                      [FileChosen [File.mk "b.pdf" "application/pdf"];
                       ProcessClicked (FetchRejects (mkExn "TypeError" "Failed to fetch"))])).
Proof.
  cbv zeta.
  exact (proj1 (results_are_never_cleared (fun _ => "") (fun x => x)
                  (mkApp initialNodes initialEdges None
                         (Some (mkResults (Js.Str "old") Js.Null Js.Null))
                         false None "online" (Js.Str "online"))
                  [FileChosen [File.mk "b.pdf" "application/pdf"];
                   ProcessClicked (FetchRejects (mkExn "TypeError" "Failed to fetch"))]
                  (ex_intro _ _ eq_refl))).
Defined.

Lemma append_nonempty (a b : string) : a <> "" -> a +:+ b <> "".
Proof. by destruct a. Qed.

(** X11.  The error banner.  Along a session the error is never the empty
    string, so the banner shows exactly when an error is set, with the
    error as its text.  A step leaves the error as it was (a health check,
    a drop without files), clears it (a PDF accepted, a run that stores
    results) or sets a message that is not empty. *)
Theorem error_banner_shows_every_error (events : list Event) :
  error (stateAfter events) <> Some "" /\
  errorBanner (stateAfter events) = error (stateAfter events) /\
  (forall e,
     let s := stateAfter events in
     error (step s e) = error s \/ error (step s e) = None \/
     exists msg, msg <> "" /\ error (step s e) = Some msg).
Proof.
  assert (Hstep : forall s e,
             error (step s e) = error s \/ error (step s e) = None \/
             exists msg, msg <> "" /\ error (step s e) = Some msg).
  { intros s e.
    destruct (step_cases s e)
      as [(net & _ & ->)|[(msg & Hmsg & ->)|[(file & _ & _ & ->)|
          [(_ & ->)|[(file & net & res & _ & _ & _ & _ & ->)|
                     (file & net & msg & _ & _ & _ & _ & ->)]]]]]; simpl; eauto.
    right; right. eexists. split; [|done]. by apply append_nonempty. }
  assert (Hne : error (stateAfter events) <> Some "").
  { induction events as [|e events IH] using rev_ind; [done|].
    rewrite stateAfter_snoc.
    destruct (Hstep (stateAfter events) e) as [-> |[-> |(msg & Hmsg & ->)]];
      [done | done | congruence]. }
  split; [done|]. split; [|by intros e; apply Hstep].
  unfold errorBanner. destruct (error (stateAfter events)) as [msg|]; [|done].
  destruct (String.eqb msg "") eqn:E; [|done].
  apply String.eqb_eq in E. by subst.
Qed.

(** X12.  When [processPDF] sends a request.  It returns in every case, and it
    sends a request exactly when a file is selected and [apiStatus] is not
    'offline': then one POST of the selected file to /process-pdf, else
    none.  Neither [isProcessing] nor the OCR status nor a pending error nor
    earlier results have a say. *)
Theorem request_sent_iff_guards_pass
    (s : AppState) (net : FetchOutcome) (cs : list Call) (con : list (list Logged)) :
  let out := processPDF net (mkWorld s cs con) in
  fst out = Returned tt /\
  calls (snd out) =
    (cs ++ match selectedFile s with
           | Some file =>
               if String.eqb (apiStatus s) "offline" then []
               else [mkCall "http://localhost:8000/process-pdf" "POST" (Some file)]
           | None => []
           end)%list.
Proof.
  cbv zeta. destruct (selectedFile s) as [file|] eqn:Hsel.
  - destruct (String.eqb (apiStatus s) "offline") eqn:Hoff.
    + unfold processPDF, bind, readState, setError, modify; simpl.
      rewrite Hsel, Hoff; simpl. by rewrite app_nil_r.
    + apply String.eqb_neq in Hoff.
      by destruct (processPDF_end s file net cs con Hsel Hoff) as (? & ? & _).
  - unfold processPDF, bind, readState, setError, modify; simpl.
    rewrite Hsel; simpl. by rewrite app_nil_r.
Qed.

Lemma request_sent_iff_guards_pass_calls (s : AppState) (net : FetchOutcome) :
  calls (snd (processPDF net (mkWorld s [] []))) =
  match selectedFile s with
  | Some file =>
      if String.eqb (apiStatus s) "offline" then [] else [processRequest file]
  | None => []
  end.
Proof.
  destruct (selectedFile s) as [file|] eqn:Hsel.
  - destruct (String.eqb (apiStatus s) "offline") eqn:Hoff.
    + unfold processPDF, bind, readState, setError, modify; simpl.
      by rewrite Hsel, Hoff.
    + apply String.eqb_neq in Hoff.
      by destruct (processPDF_end s file net [] [] Hsel Hoff) as (? & ? & _).
  - unfold processPDF, bind, readState, setError, modify; simpl.
    by rewrite Hsel.
Qed.

(** X13.  The Process button.  When the button is enabled a click is never
    turned away by the guards of [processPDF]: the request goes out and
    the handler winds down.  When the button is disabled and [processPDF]
    would send a request all the same, it is [isProcessing] that disables
    it: the button alone keeps a second request from going out while one is
    pending.  Between the events of a session the button is enabled
    exactly when a file is selected and the backend status is not
    'offline'. *)
Theorem enabled_button_submits (s : AppState) (net : FetchOutcome) :
  (processDisabled s = false ->
   exists file, selectedFile s = Some file /\
     snd (run (processPDF net) s) = [processRequest file] /\
     isProcessing (fst (run (processPDF net) s)) = false) /\
  (processDisabled s = true -> snd (run (processPDF net) s) <> [] ->
   isProcessing s = true) /\
  (forall events,
     processDisabled (stateAfter events) = false <->
     is_Some (selectedFile (stateAfter events)) /\
     apiStatus (stateAfter events) <> "offline").
Proof.
  unfold processDisabled, run. split; [|split].
  - intros Hon.
    destruct (selectedFile s) as [file|] eqn:Hsel; [|done].
    rewrite bool_decide_true in Hon by eauto. simpl in Hon.
    apply orb_false_iff in Hon as [_ Hoff]. apply String.eqb_neq in Hoff.
    destruct (processPDF_end s file net [] [] Hsel Hoff)
      as (_ & Hcalls & [(res & _ & Happ & _)|(err & _ & Happ & _)]);
      exists file; rewrite Hcalls, Happ; done.
  - intros Hdis Hsent.
    pose proof (request_sent_iff_guards_pass_calls s net) as Hcalls.
    rewrite Hcalls in Hsent.
    destruct (selectedFile s) as [file|]; [|done].
    rewrite bool_decide_true in Hdis by eauto. simpl in Hdis.
    destruct (String.eqb (apiStatus s) "offline"); [done|].
    by rewrite orb_false_r in Hdis.
  - intros events.
    destruct (reachable_graphMirrorsState events) as (_ & _ & _ & -> & _).
    destruct (selectedFile (stateAfter events)) as [file|]; simpl.
    + rewrite <- String.eqb_neq.
      split; [intros ?; split; [eauto | done] | by intros [_ ?]].
    + split; [done | by intros [[? ?] _]].
Qed.

(** The button after a PDF was chosen, the backend status still unknown. *)
Lemma enabled_button_submits_witness :
  let s := stateAfter [FileChosen [File.mk "a.pdf" "application/pdf"]] in
  processDisabled s = false /\
  snd (run (processPDF (FetchRejects (mkExn "TypeError" "Failed to fetch"))) s) =
    [processRequest (File.mk "a.pdf" "application/pdf")].
Proof.
  cbv zeta. split; [reflexivity|].
  destruct (enabled_button_submits
              (stateAfter [FileChosen [File.mk "a.pdf" "application/pdf"]])
              (FetchRejects (mkExn "TypeError" "Failed to fetch"))) as (Hon & _).
  destruct (Hon eq_refl) as (file & Hsel & Hcalls & _).
  injection Hsel as <-. exact Hcalls.
Defined.

(** X14.  How a run past the guards ends.  Results are stored exactly when
    the response is ok, its body is read, says [success] and has an
    [ocr_result] that is not [null]: then the results are the fields of the
    body, no error is set and [console.error] is not called.  In every
    other case the results stay as they were and the exception that was
    caught is reported twice: [console.error] is called once, with the text
    'Processing error:' and the exception itself as its two arguments, and
    the error is set to 'Failed to process PDF: ' followed by the message of
    that same exception.  For a request that fails and for a body that is
    no JSON the exception is the one the promise was rejected with. *)
Theorem failure_is_logged_with_its_message
    (s : AppState) (file : File.t) (net : FetchOutcome)
    (cs : list Call) (con : list (list Logged)) :
  selectedFile s = Some file ->
  apiStatus s <> "offline" ->
  let out := processPDF net (mkWorld s cs con) in
  ((exists res, resultsOf net res /\
      results (app (snd out)) = Some res /\ error (app (snd out)) = None /\
      console (snd out) = con) \/
   (exists err, (forall res, ~ resultsOf net res) /\
      results (app (snd out)) = results s /\
      error (app (snd out)) = Some ("Failed to process PDF: " +:+ message err) /\
      console (snd out) =
        (con ++ [[LoggedText "Processing error:"; LoggedError err]])%list)) /\
  (forall e, net = FetchRejects e ->
     error (app (snd out)) = Some ("Failed to process PDF: " +:+ message e) /\
     console (snd out) =
       (con ++ [[LoggedText "Processing error:"; LoggedError e]])%list) /\
  (forall code e, net = FetchResolves (mkResponse true code (JsonRejects e)) ->
     error (app (snd out)) = Some ("Failed to process PDF: " +:+ message e) /\
     console (snd out) =
       (con ++ [[LoggedText "Processing error:"; LoggedError e]])%list).
Proof.
  intros Hsel Hon. cbv zeta. split; [|split].
  - destruct (processPDF_end s file net cs con Hsel Hon)
      as (_ & _ & [(res & Hres & -> & ->)|(err & Hno & -> & ->)]).
    + left. by exists res.
    + right. by exists err.
  - intros e ->.
    rewrite (processPDF_past_guards _ (mkWorld s cs con) file Hsel Hon).
    by unfold_handlers.
  - intros code e ->.
    rewrite (processPDF_past_guards _ (mkWorld s cs con) file Hsel Hon).
    by unfold_handlers.
Qed.

(** The network is down: the rejection of [fetch] is what is logged, after
    what the console held, and its message is what the error says. *)
Lemma failure_is_logged_with_its_message_witness :
  let s := stateAfter [FileChosen [File.mk "a.pdf" "application/pdf"]] in
  let down := mkExn "TypeError" "Failed to fetch" in
  let earlier := [[LoggedText "earlier"]] in
  let out := processPDF (FetchRejects down) (mkWorld s [] earlier) in
  error (app (snd out)) = Some "Failed to process PDF: Failed to fetch" /\
  console (snd out) =
    [[LoggedText "earlier"]; [LoggedText "Processing error:"; LoggedError down]].
Proof.
  cbv zeta.
  assert (Hon : apiStatus (stateAfter [FileChosen [File.mk "a.pdf" "application/pdf"]])
                <> "offline") by (simpl; discriminate).
  destruct (failure_is_logged_with_its_message
              (stateAfter [FileChosen [File.mk "a.pdf" "application/pdf"]])
              (File.mk "a.pdf" "application/pdf")
              (FetchRejects (mkExn "TypeError" "Failed to fetch")) []
              [[LoggedText "earlier"]]
              eq_refl Hon) as (_ & Hreject & _).
  exact (Hreject _ eq_refl).
Defined.

(** X15.  The graph a run past the guards leaves, from any state.  After a
    run that fails every node called 'processing' still has the status
    'processing', although [isProcessing] is false again: nothing in the
    handler sets the status back.  After a run that stores results every
    such node has the status 'completed', every node called 'output' has
    [hasResults] true and every edge called 'processing-output' is
    animated. *)
Theorem failed_run_leaves_node_processing
    (s : AppState) (file : File.t) (net : FetchOutcome) :
  selectedFile s = Some file ->
  apiStatus s <> "offline" ->
  let s' := step s (ProcessClicked net) in
  isProcessing s' = false /\
  ((forall res, ~ resultsOf net res) ->
   forall node, node ∈ nodes s' -> Node.id node = "processing" ->
     dataProp (Node.data node) "status" = Js.Str "processing") /\
  (forall res, resultsOf net res ->
   (forall node, node ∈ nodes s' -> Node.id node = "processing" ->
      dataProp (Node.data node) "status" = Js.Str "completed") /\
   (forall node, node ∈ nodes s' -> Node.id node = "output" ->
      dataProp (Node.data node) "hasResults" = Js.Bool true) /\
   (forall edge, edge ∈ edges s' -> Edge.id edge = "processing-output" ->
      Edge.animated edge = true)).
Proof.
  intros Hsel Hon. cbv zeta. unfold step, run; simpl.
  destruct (processPDF_end s file net [] [] Hsel Hon)
    as (_ & _ & [(res & Hres & -> & _)|(err & Hno & -> & _)]).
  - split; [done|]. split; [intros Hnone; by destruct (Hnone res)|].
    intros _ _. simpl. split; [|split].
    + intros node Hnode Hid.
      apply updateNodes_other in Hnode; [|by rewrite Hid].
      by apply (updateNodes_sets _ _ _ _ "status" (Js.Str "completed") Hnode Hid).
    + intros node Hnode Hid.
      by apply (updateNodes_sets _ _ _ _ "hasResults" (Js.Bool true) Hnode Hid).
    + intros edge Hedge Hid.
      assert (Hin : edge ∈ updateEdges "processing-output" true
                             (updateEdges "pdf-processing" true (edges s))).
      { unfold updateEdges at 1 in Hedge.
        apply list_elem_of_fmap in Hedge as (e0 & -> & He0).
        destruct (String.eqb (Edge.id e0) "pdf-processing") eqn:E; [|done].
        apply String.eqb_eq in E. simpl in Hid. congruence. }
      by apply (updateEdges_sets _ _ _ _ Hin).
  - split; [done|]. split; [|intros res Hres; by destruct (Hno res)].
    intros _ node Hnode Hid. simpl in Hnode.
    by apply (updateNodes_sets _ _ _ _ "status" (Js.Str "processing") Hnode Hid).
Qed.

(** A run on the initial graph against a server that answers 500. *)
Lemma failed_run_leaves_node_processing_witness :
  let s := stateAfter [FileChosen [File.mk "a.pdf" "application/pdf"]] in
  let net := FetchResolves (mkResponse false 500 (JsonResolves (Js.Obj []))) in
  isProcessing (step s (ProcessClicked net)) = false /\
  exists node, nodes (step s (ProcessClicked net)) !! 1%nat = Some node /\
               Node.id node = "processing" /\
               dataProp (Node.data node) "status" = Js.Str "processing".
Proof.
  cbv zeta.
  assert (Hon : apiStatus (stateAfter [FileChosen [File.mk "a.pdf" "application/pdf"]])
                <> "offline") by (simpl; discriminate).
  destruct (failed_run_leaves_node_processing
              (stateAfter [FileChosen [File.mk "a.pdf" "application/pdf"]])
              (File.mk "a.pdf" "application/pdf")
              (FetchResolves (mkResponse false 500 (JsonResolves (Js.Obj []))))
              eq_refl Hon) as (Hidle & Hfail & _).
  split; [exact Hidle|].
  eexists. split; [reflexivity|]. split; [reflexivity|].
  apply Hfail; [no_results | | reflexivity].
  apply (list_elem_of_lookup_2 _ 1%nat). reflexivity.
Defined.

(** ** How the updates of the graph combine *)

Lemma mergeNodeData_merge (d1 d2 : gmap string Js.value) (node : Node.t) :
  mergeNodeData d2 (mergeNodeData d1 node) = mergeNodeData (d2 ∪ d1) node.
Proof. unfold mergeNodeData; simpl. by rewrite (assoc_L (∪)). Qed.

Lemma mergeNodeData_empty (node : Node.t) : mergeNodeData ∅ node = node.
Proof. destruct node. unfold mergeNodeData; simpl. by rewrite (left_id_L ∅ (∪)). Qed.

(** X16.  Updates that change nothing.  An id that no node, or no edge,
    carries makes the update return the list as it is, without any error;
    so does merging empty data into a node, and so does setting the
    animation of an edge to what it already is. *)
Theorem update_without_effect
    (nodeId : string) (newData : gmap string Js.value) (nds : list Node.t)
    (edgeId : string) (animated : bool) (eds : list Edge.t) :
  ((forall node, node ∈ nds -> Node.id node <> nodeId) ->
   updateNodes nodeId newData nds = nds) /\
  updateNodes nodeId ∅ nds = nds /\
  ((forall edge, edge ∈ eds -> Edge.id edge <> edgeId) ->
   updateEdges edgeId animated eds = eds) /\
  ((forall edge, edge ∈ eds -> Edge.id edge = edgeId -> Edge.animated edge = animated) ->
   updateEdges edgeId animated eds = eds).
Proof.
  unfold updateNodes, updateEdges. repeat split.
  - intros Hnone. induction nds as [|node nds IH]; [done|]. simpl.
    rewrite IH by (intros n Hn; apply Hnone; by right).
    assert (Hne : Node.id node <> nodeId) by (apply Hnone; by left).
    apply String.eqb_neq in Hne. by rewrite Hne.
  - induction nds as [|node nds IH]; [done|]. simpl. rewrite IH.
    destruct (String.eqb (Node.id node) nodeId); [|done].
    by rewrite mergeNodeData_empty.
  - intros Hnone. induction eds as [|edge eds IH]; [done|]. simpl.
    rewrite IH by (intros x Hx; apply Hnone; by right).
    assert (Hne : Edge.id edge <> edgeId) by (apply Hnone; by left).
    apply String.eqb_neq in Hne. by rewrite Hne.
  - intros Hsame. induction eds as [|edge eds IH]; [done|]. simpl.
    rewrite IH by (intros x Hx; apply Hsame; by right).
    destruct (String.eqb (Edge.id edge) edgeId) eqn:E; [|done].
    apply String.eqb_eq in E.
    assert (Ha : Edge.animated edge = animated) by (apply Hsame; [by left | done]).
    destruct edge; simpl in *. unfold withAnimated; simpl. by rewrite Ha.
Qed.

(** An update for a node that the initial graph does not have. *)
Lemma update_without_effect_witness :
  updateNodes "preview" {[ "status" := Js.Str "ready" ]} initialNodes = initialNodes.
Proof.
  destruct (update_without_effect "preview" {[ "status" := Js.Str "ready" ]}
              initialNodes "" false []) as (Hnone & _).
  apply Hnone. intros node Hnode.
  repeat (apply elem_of_cons in Hnode as [-> |Hnode]; [simpl; discriminate|]).
  by apply elem_of_nil in Hnode.
Defined.

(** X17.  Updates one after the other.  Two updates of the data of the same id
    are one update with the merged data, the later one winning on a field
    they share; of two updates of the animation of the same id the later
    one stands.  Updates of different ids can be made in either order. *)
Theorem updates_compose
    (id1 id2 : string) (d1 d2 : gmap string Js.value) (nds : list Node.t)
    (a1 a2 : bool) (eds : list Edge.t) :
  updateNodes id1 d2 (updateNodes id1 d1 nds) = updateNodes id1 (d2 ∪ d1) nds /\
  updateEdges id1 a2 (updateEdges id1 a1 eds) = updateEdges id1 a2 eds /\
  (id1 <> id2 ->
   updateNodes id1 d1 (updateNodes id2 d2 nds) =
   updateNodes id2 d2 (updateNodes id1 d1 nds) /\
   updateEdges id1 a1 (updateEdges id2 a2 eds) =
   updateEdges id2 a2 (updateEdges id1 a1 eds)).
Proof.
  unfold updateNodes, updateEdges. rewrite !map_map. repeat split.
  - apply map_ext. intros node.
    destruct (String.eqb (Node.id node) id1) eqn:E; simpl; rewrite E; [|done].
    apply mergeNodeData_merge.
  - apply map_ext. intros edge.
    destruct (String.eqb (Edge.id edge) id1) eqn:E; simpl; by rewrite E.
  - apply map_ext. intros node.
    destruct (String.eqb (Node.id node) id1) eqn:E1;
      destruct (String.eqb (Node.id node) id2) eqn:E2; simpl;
      rewrite ?E1, ?E2; try done.
    apply String.eqb_eq in E1, E2. congruence.
  - apply map_ext. intros edge.
    destruct (String.eqb (Edge.id edge) id1) eqn:E1;
      destruct (String.eqb (Edge.id edge) id2) eqn:E2; simpl;
      rewrite ?E1, ?E2; try done.
    apply String.eqb_eq in E1, E2. congruence.
Qed.

(** Marking the processing node and the output node, in both orders. *)
Lemma updates_compose_witness :
  updateNodes "processing" {[ "status" := Js.Str "completed" ]}
    (updateNodes "output" {[ "hasResults" := Js.Bool true ]} initialNodes) =
  updateNodes "output" {[ "hasResults" := Js.Bool true ]}
    (updateNodes "processing" {[ "status" := Js.Str "completed" ]} initialNodes).
Proof.
  destruct (updates_compose "processing" "output"
              {[ "status" := Js.Str "completed" ]} {[ "hasResults" := Js.Bool true ]}
              initialNodes false false []) as (_ & _ & Hswap).
  destruct Hswap as [Hnodes _]; [discriminate|]. exact Hnodes.
Defined.
